(** * btc_chart: the time-series alignment and merge engine of
      [src/app/api/btc-price/route.ts]

    A shallow embedding of the route handler [GET] and of its helpers
    [buildDayMap] and [lookupRP], followed by the properties of the
    repository's specification.

    Conventions of the embedding.
    - Time values (the [timestampMs] of a metric point, the unix seconds [x]
      of a price point, [Date.now()]) are integers, [Z].  A [Date] is valid
      when its time value lies within 8.64e15 ms of the epoch ([validTime]);
      the only place where the handler can throw on an invalid one,
      [toISOString], is modelled.
    - Metric values and prices are JavaScript numbers; they are read as exact
      rationals, [Q].  [Math.round x] is the floor of [x + 1/2].
    - A [Map<number, number>] is a [gmap Z Q].  The handler only ever reads
      the keys of a map through [[...m.keys()].sort((a, b) => a - b)], so the
      insertion order of the keys is immaterial.
    - [null] and [undefined] are [None].
    - The one 32-bit operation of the file, [(lo + hi) >> 1], goes through
      [toInt32] with its wrap-around.
    - The five fetchers are the arguments of [GET], each an [option]. *)

From Stdlib Require Import ZArith QArith Qround Lia Lqa.
From stdpp Require Import base option list sorting gmap strings.

Local Open Scope Z_scope.

(** ** Time *)

Definition msPerDay : Z := 86400000.

(** The range of time values of a valid [Date] (ECMAScript TimeClip). *)
Definition maxTime : Z := 8640000000000000.

Definition validTime (t : Z) : Prop := - maxTime <= t <= maxTime.

Definition validTimeb (t : Z) : bool := (- maxTime <=? t) && (t <=? maxTime).

(** [d = new Date(ts); d.setUTCHours(0, 0, 0, 0); d.getTime()], for a valid
    time value [ts].  Outside the range of [Date] the code gets [NaN]; the
    properties that depend on the day of a time value carry [validTime]. *)
Definition utcMidnight (ts : Z) : Z := msPerDay * (ts / msPerDay).

(** ECMAScript's DayFromYear, and [Date.UTC(year, month, day)] for a
    zero-based month. *)
Definition DayFromYear (y : Z) : Z :=
  365 * (y - 1970) + (y - 1969) / 4 - (y - 1901) / 100 + (y - 1601) / 400.

Definition InLeapYear (y : Z) : bool :=
  ((y mod 4 =? 0) && negb (y mod 100 =? 0)) || (y mod 400 =? 0).

Definition monthLengths (y : Z) : list Z :=
  [31; if InLeapYear y then 29 else 28; 31; 30; 31; 30; 31; 31; 30; 31; 30; 31].

Definition Date_UTC (year month day : Z) : Z :=
  msPerDay *
  (DayFromYear year
   + foldr Z.add 0 (take (Z.to_nat month) (monthLengths year))
   + (day - 1)).

(** ** Numbers *)

(** [Math.round] *)
Definition Math_round (v : Q) : Z := Qfloor (v + (1 # 2)).

(** Truthiness of a number: every number but zero. *)
Definition truthy (v : Q) : bool := negb (Qnum v =? 0).

(** [ToInt32] and the signed shift [a >> k] for [0 <= k < 32]. *)
Definition toInt32 (a : Z) : Z :=
  let m := a mod 2 ^ 32 in if m <? 2 ^ 31 then m else m - 2 ^ 32.

Definition sar (a k : Z) : Z := Z.shiftr (toInt32 a) k.

(** [a[i]]: [undefined] outside the array. *)
Definition at_index {A} (a : list A) (i : Z) : option A :=
  if i <? 0 then None else a !! Z.to_nat i.

(** ** Day maps *)

(** [buildDayMap]: one entry per UTC day, a later point of the same day
    overwriting an earlier one.  The keys are those of a series of valid
    time values. *)
Definition buildDayMap (raw : list (Z * Q)) : gmap Z Q :=
  foldl (fun map '(ts, val) => <[utcMidnight ts := val]> map) ∅ raw.

(** The UTC days on which the points of a raw series fall. *)
Definition daysOf (raw : list (Z * Q)) : list Z :=
  (fun p => utcMidnight p.1) <$> raw.

(** [[...map.keys()].sort((a, b) => a - b)], for a map whose keys are all
    numbers, as the day map of a series of valid time values is. *)
Definition sortedKeysOf (map : gmap Z Q) : list Z :=
  merge_sort Z.le (map_to_list map).*1.

(** ** lookupRP *)

(** The state of the binary search when its loop exits, together with the
    indices at which [sortedKeys] was read, oldest first. *)
Record search := { best : Z; reads : list Z }.

(** The [while (lo <= hi)] loop.  [None]: the loop is still running after
    [fuel] iterations.  A read outside the array yields [undefined], and
    [undefined <= dayTs] is false. *)
Fixpoint bsearch (fuel : nat) (sortedKeys : list Z) (dayTs lo hi : Z)
    (st : search) : option search :=
  if lo <=? hi then
    match fuel with
    | O => None
    | S fuel' =>
        let mid := sar (lo + hi) 1 in
        let st' := {| best := best st; reads := reads st ++ [mid] |} in
        match at_index sortedKeys mid with
        | Some k =>
            if k <=? dayTs
            then bsearch fuel' sortedKeys dayTs (mid + 1) hi
                   {| best := mid; reads := reads st' |}
            else bsearch fuel' sortedKeys dayTs lo (mid - 1) st'
        | None => bsearch fuel' sortedKeys dayTs lo (mid - 1) st'
        end
    end
  else Some st.

(** A run of [lookupRP] at a valid time value: the value returned and the
    indices of [sortedKeys] that were read.  [None]: the loop did not finish
    within [fuel]. *)
Definition lookupRP_run (fuel : nat) (dayMap : gmap Z Q) (sortedKeys : list Z)
    (timestampMs : Z) : option (option Q * list Z) :=
  let dayTs := utcMidnight timestampMs in
  match dayMap !! dayTs with
  | Some exact => Some (Some exact, [])
  | None =>
      match bsearch fuel sortedKeys dayTs 0 (Z.of_nat (length sortedKeys) - 1)
              {| best := -1; reads := [] |} with
      | None => None
      | Some st =>
          if 0 <=? best st
          then Some (at_index sortedKeys (best st) ≫= (dayMap !!.),
                     reads st ++ [best st])
          else Some (None, reads st)
      end
  end.

(** [lookupRP], run with one turn of the loop per key and one to spare.  On
    an array of at most [2 ^ 30] keys the loop halves [hi - lo] at every turn
    and always ends within that allowance. *)
Definition lookupRP (dayMap : gmap Z Q) (sortedKeys : list Z)
    (timestampMs : Z) : option Q :=
  match lookupRP_run (S (length sortedKeys)) dayMap sortedKeys timestampMs with
  | Some (r, _) => r
  | None => None
  end.

Definition inBounds {A} (a : list A) (i : Z) : Prop :=
  0 <= i < Z.of_nat (length a).

(** ** Records *)

(** A point [{x, y}] of the historical price feed: unix seconds and price. *)
Module Price.
Record point := { x : Z; y : Q }.
End Price.

(** The unit of the output sequence. *)
Record CompositeRecord := {
  date : Z;
  price : Z;
  rp : Z;
  rp_0_8 : Z;
  rp_1_25 : Z;
  rp_1_7 : Z;
  rp_2_4 : Z;
  rp_3_2 : Z;
  sth_rp : option Z;
  lth_rp : option Z
}.

(** The body of a successful response.  [latestRPDate] and [updatedAt] are
    the time values whose ISO rendering the handler sends. *)
Record Body := {
  data : list CompositeRecord;
  latestRP : Z;
  latestRPDate : Z;
  latestSTH : option Z;
  latestLTH : option Z;
  latestPrice : Z;
  updatedAt : Z;
  source : string;
  priceNote : string;
  dataPoints : Z
}.

(** What [GET] answers: [{ error }] with a status, or the body. *)
Inductive Response :=
  | Failure (status : Z) (error : string)
  | Success (body : Body).

(** ** The route handler, block by block *)

(** [Date.UTC(2018, 0, 1) / 1000] *)
Definition startDate : Z := Date_UTC 2018 0 1 / 1000.

(** [historicalPrices.filter((d) => d.x >= startDate && d.y > 0)] *)
Definition keepPoint (d : Price.point) : bool :=
  (startDate <=? Price.x d) && negb (Qle_bool (Price.y d) 0).

Definition filteredOf (historicalPrices : list Price.point) : list Price.point :=
  List.filter keepPoint historicalPrices.

(** [a.filter((_, i) => f(i))], the index starting at [i]. *)
Fixpoint filter_index {A} (f : nat -> bool) (i : nat) (a : list A) : list A :=
  match a with
  | [] => []
  | d :: a' =>
      if f i then d :: filter_index f (S i) a' else filter_index f (S i) a'
  end.

(** [filtered.filter((_, i) => i % 4 === 0)] *)
Definition everyFourth (filtered : list Price.point) : list Price.point :=
  filter_index (fun i => Z.of_nat i mod 4 =? 0) 0 filtered.

(** [sampled], after the conditional [push] of [lastHistorical].  With
    [sampled] non-empty [filtered] is non-empty too, so [lastHistorical] is
    defined where it is read. *)
Definition sampledOf (filtered : list Price.point) : list Price.point :=
  let sampled := everyFourth filtered in
  let lastHistorical := last filtered in
  match last sampled, lastHistorical with
  | Some s, Some h =>
      if negb (Price.x s =? Price.x h) then sampled ++ [h] else sampled
  | _, _ => sampled
  end.

(** [v ? Math.round(v) : null] for a nullable [v] *)
Definition roundOrNull (v : option Q) : option Z :=
  match v with
  | Some n => if truthy n then Some (Math_round n) else None
  | None => None
  end.

(** [m && k ? lookupRP(m, k, ts) : other] *)
Definition cohortLookup (m : option (gmap Z Q)) (k : option (list Z))
    (ts : Z) (other : option Q) : option Q :=
  match m, k with
  | Some m, Some k => lookupRP m k ts
  | _, _ => other
  end.

(** The callback of [sampled.map]. *)
Definition chartPoint (rpMap : gmap Z Q) (rpKeys : list Z)
    (sthMap : option (gmap Z Q)) (sthKeys : option (list Z))
    (lthMap : option (gmap Z Q)) (lthKeys : option (list Z))
    (d : Price.point) : CompositeRecord :=
  let tsMs := Price.x d * 1000 in
  let rp := default 0%Q (lookupRP rpMap rpKeys tsMs) in
  let sthRP := cohortLookup sthMap sthKeys tsMs None in
  let lthRP := cohortLookup lthMap lthKeys tsMs None in
  {| date := tsMs;
     price := Math_round (Price.y d);
     rp := Math_round rp;
     rp_0_8 := Math_round (rp * 0.8);
     rp_1_25 := Math_round (rp * 1.25);
     rp_1_7 := Math_round (rp * 1.7);
     rp_2_4 := Math_round (rp * 2.4);
     rp_3_2 := Math_round (rp * 3.2);
     sth_rp := roundOrNull sthRP;
     lth_rp := roundOrNull lthRP |}.

(** The candidate record of the live tick. *)
Definition livePoint (rpMap : gmap Z Q) (rpKeys : list Z)
    (sthMap : option (gmap Z Q)) (sthKeys : option (list Z))
    (lthMap : option (gmap Z Q)) (lthKeys : option (list Z))
    (latestRP : Z) (latestSTH latestLTH : option Z)
    (livePrice : Q) (now : Z) : CompositeRecord :=
  let rp := default (inject_Z latestRP) (lookupRP rpMap rpKeys now) in
  let sthRP := cohortLookup sthMap sthKeys now (inject_Z <$> latestSTH) in
  let lthRP := cohortLookup lthMap lthKeys now (inject_Z <$> latestLTH) in
  {| date := now;
     price := Math_round livePrice;
     rp := Math_round rp;
     rp_0_8 := Math_round (rp * 0.8);
     rp_1_25 := Math_round (rp * 1.25);
     rp_1_7 := Math_round (rp * 1.7);
     rp_2_4 := Math_round (rp * 2.4);
     rp_3_2 := Math_round (rp * 3.2);
     sth_rp := roundOrNull sthRP;
     lth_rp := roundOrNull lthRP |}.

(** [if (now - lastChartTs > 12 * 60 * 60 * 1000) push else overwrite the
    last element], for a non-empty [chartData] whose last date is
    [lastChartTs]. *)
Definition pushOrReplace (chartData : list CompositeRecord) (lastChartTs : Z)
    (now : Z) (point : CompositeRecord) : list CompositeRecord :=
  if 12 * 60 * 60 * 1000 <? now - lastChartTs
  then chartData ++ [point]
  else <[Nat.pred (length chartData) := point]> chartData.

(** [raw && raw.length > 0 ? buildDayMap(raw) : null] *)
Definition cohortMap (raw : option (list (Z * Q))) : option (gmap Z Q) :=
  match raw with
  | Some r => if 0 <? Z.of_nat (length r) then Some (buildDayMap r) else None
  | None => None
  end.

(** [m && m.size > 0 ? [...m.keys()].sort((a, b) => a - b) : null] *)
Definition cohortKeys (m : option (gmap Z Q)) : option (list Z) :=
  match m with
  | Some m => if 0 <? Z.of_nat (size m) then Some (sortedKeysOf m) else None
  | None => None
  end.

(** [raw && raw.length > 0 ? Math.round(raw[raw.length - 1][1]) : null] *)
Definition latestOf (raw : option (list (Z * Q))) : option Z :=
  match raw with
  | Some r => (fun e => Math_round (snd e)) <$> last r
  | None => None
  end.

(** [chartData] as [sampled.map] leaves it, before the live tick. *)
Definition chartDataOf (realizedPriceRaw : list (Z * Q))
    (sthRPRaw lthRPRaw : option (list (Z * Q)))
    (historicalPrices : list Price.point) : list CompositeRecord :=
  let rpMap := buildDayMap realizedPriceRaw in
  let rpKeys := sortedKeysOf rpMap in
  let sthMap := cohortMap sthRPRaw in
  let sthKeys := cohortKeys sthMap in
  let lthMap := cohortMap lthRPRaw in
  let lthKeys := cohortKeys lthMap in
  chartPoint rpMap rpKeys sthMap sthKeys lthMap lthKeys
    <$> sampledOf (filteredOf historicalPrices).

(** [livePrice ?? lastHistorical?.y ?? chartData[chartData.length - 1]?.price
    ?? 0], read before the live tick touches [chartData]. *)
Definition currentPriceOf (livePrice : option Q)
    (lastHistorical : option Price.point)
    (chartData : list CompositeRecord) : Q :=
  match livePrice with
  | Some p => p
  | None =>
      match lastHistorical with
      | Some h => Price.y h
      | None =>
          match last chartData with
          | Some r => inject_Z (price r)
          | None => 0%Q
          end
      end
  end.

(** The block [if (livePrice && chartData.length > 0) { ... }]. *)
Definition liveTick (rpMap : gmap Z Q) (rpKeys : list Z)
    (sthMap : option (gmap Z Q)) (sthKeys : option (list Z))
    (lthMap : option (gmap Z Q)) (lthKeys : option (list Z))
    (latestRP : Z) (latestSTH latestLTH : option Z)
    (livePrice : option Q) (now : Z)
    (chartData : list CompositeRecord) : list CompositeRecord :=
  match livePrice, last chartData with
  | Some p, Some lastRecord =>
      if truthy p
      then pushOrReplace chartData (date lastRecord) now
             (livePoint rpMap rpKeys sthMap sthKeys lthMap lthKeys
                latestRP latestSTH latestLTH p now)
      else chartData
  | _, _ => chartData
  end.

(** [GET].  Its arguments are what the five fetchers resolved to and the two
    readings of the clock, [Date.now()] and [new Date()].  A fault thrown
    inside the [try] block is answered by the [catch] block with status
    500. *)
Definition GET (realizedPriceRaw sthRPRaw lthRPRaw : option (list (Z * Q)))
    (historicalPrices : option (list Price.point)) (livePrice : option Q)
    (now clock : Z) : Response :=
  match realizedPriceRaw with
  | None => Failure 502 "Failed to fetch on-chain realized price data"
  | Some rpRaw =>
  if Z.of_nat (length rpRaw) <? 100
  then Failure 502 "Failed to fetch on-chain realized price data"
  else
  match historicalPrices with
  | None => Failure 502 "Failed to fetch historical BTC price data"
  | Some hist =>
  if Z.of_nat (length hist) <? 100
  then Failure 502 "Failed to fetch historical BTC price data"
  else
    let rpMap := buildDayMap rpRaw in
    let rpKeys := sortedKeysOf rpMap in
    let sthMap := cohortMap sthRPRaw in
    let sthKeys := cohortKeys sthMap in
    let lthMap := cohortMap lthRPRaw in
    let lthKeys := cohortKeys lthMap in
    let filtered := filteredOf hist in
    let lastHistorical := last filtered in
    let chartData := chartDataOf rpRaw sthRPRaw lthRPRaw hist in
    match last rpRaw with
    | None => Failure 500 "Internal server error fetching BTC data"
    | Some latestRPEntry =>
    let latestRP := Math_round (snd latestRPEntry) in
    (* new Date(latestRPEntry[0]).toISOString() throws on an invalid date *)
    if negb (validTimeb (fst latestRPEntry))
    then Failure 500 "Internal server error fetching BTC data"
    else
    let latestRPDate := fst latestRPEntry in
    let latestSTH := latestOf sthRPRaw in
    let latestLTH := latestOf lthRPRaw in
    let currentPrice := currentPriceOf livePrice lastHistorical chartData in
    let chartData' :=
      liveTick rpMap rpKeys sthMap sthKeys lthMap lthKeys
        latestRP latestSTH latestLTH livePrice now chartData in
    Success
      {| data := chartData';
         latestRP := latestRP;
         latestRPDate := latestRPDate;
         latestSTH := latestSTH;
         latestLTH := latestLTH;
         latestPrice := Math_round currentPrice;
         updatedAt := clock;
         source := "BGeometrics (on-chain) + Blockchain.info (full history) + CoinPaprika (live)";
         priceNote := "Historical BTC price is daily average from Blockchain.info; live spot price from CoinPaprika";
         dataPoints := Z.of_nat (length chartData') |}
    end
  end
  end.

(** * The components that read the response

    [determineBand] and the conditions of the [BTCCommentary] component, and
    the Y-axis domain that [BTCRealizedBandsChart] computes from the records
    of the response. *)

(** ** Commentary *)

(** What dividing one finite number by another yields. *)
Inductive quotient :=
  | Finite (q : Q)
  | PlusInfinity
  | MinusInfinity
  | NaN.

(** [a / b] *)
Definition divide (a b : Q) : quotient :=
  if Qeq_bool b 0 then
    if Qeq_bool a 0 then NaN
    else if Qle_bool 0 a then PlusInfinity else MinusInfinity
  else Finite (a / b).

(** [r >= c] for a finite [c]: false on [NaN]. *)
Definition atLeast (r : quotient) (c : Q) : bool :=
  match r with
  | Finite q => Qle_bool c q
  | PlusInfinity => true
  | MinusInfinity => false
  | NaN => false
  end.

Record Band := { zone : string; sentiment : string }.

(** [determineBand] *)
Definition determineBand (price rp : Q) : Band :=
  let ratio := divide price rp in
  if atLeast ratio 3.2
  then {| zone := "above 3.2x RP"; sentiment := "Extreme Overheated" |}
  else if atLeast ratio 2.4
  then {| zone := "between 2.4x-3.2x RP"; sentiment := "Euphoria" |}
  else if atLeast ratio 1.7
  then {| zone := "between 1.7x-2.4x RP"; sentiment := "Above Fair Value" |}
  else if atLeast ratio 1.25
  then {| zone := "between 1.25x-1.7x RP"; sentiment := "Bull Trend" |}
  else if atLeast ratio 1.0
  then {| zone := "between 1.0x-1.25x RP"; sentiment := "Caution" |}
  else if atLeast ratio 0.8
  then {| zone := "between 0.8x-1.0x RP"; sentiment := "Capitulation Risk" |}
  else {| zone := "below 0.8x RP"; sentiment := "Deep Capitulation" |}.

(** The multipliers of [BAND_MULTIPLIERS], and the values
    [Math.round(rp * b.mult)] of the band table. *)
Definition BAND_MULTIPLIERS : list Q := [3.2; 2.4; 1.7; 1.25; 1.0; 0.8]%Q.

Definition bands (rp : Q) : list Z :=
  (fun mult => Math_round (rp * mult)) <$> BAND_MULTIPLIERS.

(** [Math.round(rp * 1.25)] and [Math.round(rp * 0.8)] *)
Definition key125 (rp : Q) : Z := Math_round (rp * 1.25).

Definition key08 (rp : Q) : Z := Math_round (rp * 0.8).

(** The condition [price > key125] of the live-position paragraph. *)
Definition holdsDecisionLine (price rp : Q) : bool :=
  negb (Qle_bool price (inject_Z (key125 rp))).

(** The three texts of the key insight:
    [price >= key125 ? ... : price >= rp ? ... : ...]. *)
Inductive Insight :=
  | AboveDecisionLine
  | LostDecisionLine
  | BelowRealizedPrice.

Definition keyInsight (price rp : Q) : Insight :=
  if Qle_bool (inject_Z (key125 rp)) price then AboveDecisionLine
  else if Qle_bool rp price then LostDecisionLine
  else BelowRealizedPrice.

(** ** Chart *)

(** [chartData.some((d) => d.sth_rp != null)], and the same for [lth_rp]. *)
Definition hasSTH (chartData : list CompositeRecord) : bool :=
  existsb (fun d => bool_decide (is_Some (sth_rp d))) chartData.

Definition hasLTH (chartData : list CompositeRecord) : bool :=
  existsb (fun d => bool_decide (is_Some (lth_rp d))) chartData.

(** The callback of [chartData.flatMap], and [allValues]. *)
Definition valuesOf (d : CompositeRecord) : list Z :=
  [price d; rp_3_2 d; rp_0_8 d]
    ++ option_list (sth_rp d) ++ option_list (lth_rp d).

Definition allValuesOf (chartData : list CompositeRecord) : list Z :=
  List.filter (fun v => 0 <? v) (chartData ≫= valuesOf).

(** [allValues.length > 0 ? Math.max(...allValues) : 200000] and
    [allValues.length > 0 ? Math.min(...allValues) : 2000] *)
Definition dataMaxOf (allValues : list Z) : Z :=
  match allValues with
  | [] => 200000
  | v :: rest => foldl Z.max v rest
  end.

Definition dataMinOf (allValues : list Z) : Z :=
  match allValues with
  | [] => 2000
  | v :: rest => foldl Z.min v rest
  end.

Definition LOG_TICKS_POOL : list Z :=
  [500; 1000; 2000; 4000; 6000; 8000; 10000; 20000; 40000;
   60000; 80000; 100000; 150000; 200000; 300000; 400000; 500000; 750000;
   1000000].

(** [LOG_TICKS_POOL.filter((t) => t <= dataMin).pop() ?? 500] *)
Definition yMinOf (dataMin : Z) : Z :=
  default 500 (last (List.filter (fun t => t <=? dataMin) LOG_TICKS_POOL)).

(** [LOG_TICKS_POOL.find((t) => t >= dataMax * 1.15) ?? 1000000] *)
Definition yMaxOf (dataMax : Z) : Z :=
  default 1000000
    (List.find (fun t => Qle_bool (inject_Z dataMax * 1.15) (inject_Z t))
       LOG_TICKS_POOL).

(** [LOG_TICKS_POOL.filter((t) => t >= yMin && t <= yMax)] *)
Definition yTicksOf (yMin yMax : Z) : list Z :=
  List.filter (fun t => (yMin <=? t) && (t <=? yMax)) LOG_TICKS_POOL.

(** ** Vocabulary of the properties *)

(** [b] splits ascending keys at [dayTs]: the keys up to index [b] are at most
    [dayTs], the keys after it are greater. *)
Definition splitsAt (sortedKeys : list Z) (dayTs : Z) (b : Z) : Prop :=
  -1 <= b < Z.of_nat (length sortedKeys)
  /\ (forall i k, at_index sortedKeys i = Some k -> i <= b -> k <= dayTs)
  /\ (forall i k, at_index sortedKeys i = Some k -> b < i -> dayTs < k).

(** The band fields of [r] are the independently rounded multiples of the
    realized price [v]. *)
Definition bandsOf (v : Q) (r : CompositeRecord) : Prop :=
  rp r = Math_round v
  /\ rp_0_8 r = Math_round (v * 0.8)
  /\ rp_1_25 r = Math_round (v * 1.25)
  /\ rp_1_7 r = Math_round (v * 1.7)
  /\ rp_2_4 r = Math_round (v * 2.4)
  /\ rp_3_2 r = Math_round (v * 3.2).

(** The strict chain of the bands. *)
Definition bandChain (r : CompositeRecord) : Prop :=
  rp_0_8 r < rp r /\ rp r < rp_1_25 r /\ rp_1_25 r < rp_1_7 r
  /\ rp_1_7 r < rp_2_4 r /\ rp_2_4 r < rp_3_2 r.

(** ** Sample feeds *)

(** A hundred metric points of value [v], all on 2018-01-01. *)
Definition oneDaySeries (v : Q) : list (Z * Q) :=
  replicate 100 (1514764800000, v).

(** A hundred daily prices of 7 from 2018-01-01 on. *)
Definition dailyPrices : list Price.point :=
  (fun i => {| Price.x := 1514764800 + 86400 * Z.of_nat i; Price.y := 7 |})
    <$> seq 0 100.

(** The two-day series of the end-to-end example, from day [d0] (unix
    seconds): the valuation points and the price points. *)
Definition twoDaySeries (d0 : Z) : list (Z * Q) :=
  [(d0 * 1000, 20000%Q); ((d0 + 864000) * 1000, 22000%Q)].

Definition twoDayPrices (d0 : Z) : list Price.point :=
  [{| Price.x := d0; Price.y := 21000 |};
   {| Price.x := d0 + 864000; Price.y := 23500 |}].

(** Four valuation points, two of them on the same day. *)
Definition doubledDaySeries : list (Z * Q) :=
  [(0, 1%Q); (3 * msPerDay + 5, 2%Q); (3 * msPerDay + 7, 2.5%Q);
   (10 * msPerDay, 3%Q)].



(** The second record of the end-to-end example, ten days into 2018. *)
Definition dayTenRecord : CompositeRecord :=
  {| date := 1515628800000; price := 23500; rp := 22000;
     rp_0_8 := 17600; rp_1_25 := 27500; rp_1_7 := 37400;
     rp_2_4 := 52800; rp_3_2 := 70400;
     sth_rp := None; lth_rp := None |}.

(** A cohort series whose only reading is 0. *)
Definition zeroCohort : gmap Z Q := buildDayMap [(1514764800000, 0%Q)].

(** An array of [2 ^ 31] keys, all of them 0. *)
Definition hugeKeys : list Z := replicate (Z.to_nat (2 ^ 31)) 0.

(** * Properties *)

Local Ltac lia_mod := zify; Z.div_mod_to_equations; lia.

(** ** 32-bit midpoint *)

Lemma toInt32_small (a : Z) : - 2 ^ 31 <= a < 2 ^ 31 -> toInt32 a = a.
Proof.
  intros Ha. unfold toInt32.
  destruct (Z.ltb_spec (a mod 2 ^ 32) (2 ^ 31)) as [Hm | Hm].
  - destruct (Z.neg_nonneg_cases a) as [Hneg | Hpos].
    + assert (a mod 2 ^ 32 = a + 2 ^ 32) by
        (symmetry; apply Z.mod_unique with (-1); lia).
      lia.
    + apply Z.mod_small. lia.
  - destruct (Z.neg_nonneg_cases a) as [Hneg | Hpos].
    + assert (a mod 2 ^ 32 = a + 2 ^ 32) by
        (symmetry; apply Z.mod_unique with (-1); lia).
      lia.
    + rewrite Z.mod_small in Hm; lia.
Qed.

Lemma sar_midpoint (lo hi : Z) :
  0 <= lo -> lo <= hi -> hi < 2 ^ 30 ->
  sar (lo + hi) 1 = (lo + hi) / 2 /\ lo <= sar (lo + hi) 1 <= hi.
Proof.
  intros Hlo Hle Hhi. unfold sar.
  rewrite toInt32_small by lia.
  rewrite Z.shiftr_div_pow2 by lia.
  change (2 ^ 1) with 2. split; [done |].
  split; [apply Z.div_le_lower_bound | apply Z.div_le_upper_bound]; lia.
Qed.

(** ** Array reads *)

Lemma at_index_Some {A} (a : list A) (i : Z) (v : A) :
  at_index a i = Some v <-> 0 <= i /\ a !! Z.to_nat i = Some v.
Proof.
  unfold at_index. destruct (Z.ltb_spec i 0); split; intros H1; try done.
  - lia.
  - by destruct H1.
Qed.

Lemma at_index_inBounds {A} (a : list A) (i : Z) :
  inBounds a i -> is_Some (at_index a i).
Proof.
  intros [H0 Hn]. unfold at_index.
  destruct (Z.ltb_spec i 0); [lia |].
  apply lookup_lt_is_Some. lia.
Qed.

Lemma at_index_None {A} (a : list A) (i : Z) :
  at_index a i = None -> ~ inBounds a i.
Proof.
  intros Hn Hb. apply at_index_inBounds in Hb. rewrite Hn in Hb.
  by destruct Hb.
Qed.

Lemma at_index_Some_inBounds {A} (a : list A) (i : Z) (v : A) :
  at_index a i = Some v -> inBounds a i.
Proof.
  rewrite at_index_Some. intros [H0 Hl]. apply lookup_lt_Some in Hl.
  unfold inBounds. lia.
Qed.

(** ** Ascending arrays *)

Lemma sorted_lookup_lt {A} (R : relation A) (l : list A) :
  StronglySorted R l ->
  forall (i j : nat) (a b : A),
    l !! i = Some a -> l !! j = Some b -> (i < j)%nat -> R a b.
Proof.
  induction 1 as [| x l Hl IH Hx]; intros i j a b Ha Hb Hij; [done |].
  destruct i as [| i], j as [| j]; simpl in *; simplify_eq; try lia.
  - rewrite Forall_forall in Hx. apply Hx.
    by eapply list_elem_of_lookup_2.
  - apply (IH i j); [done .. | lia].
Qed.

Lemma ascending_lookup (l : list Z) :
  StronglySorted Z.le l ->
  forall (i j : nat) (a b : Z),
    l !! i = Some a -> l !! j = Some b -> (i <= j)%nat -> a <= b.
Proof.
  intros Hl i j a b Ha Hb Hij.
  destruct (decide (i = j)) as [-> | Hne].
  - rewrite Ha in Hb. simplify_eq. lia.
  - apply (sorted_lookup_lt Z.le l Hl i j); [done .. | lia].
Qed.

(** ** The loop of [lookupRP]

    On an array of at most [2 ^ 30] keys the midpoint never wraps; the loop
    then ends within [hi - lo + 1] turns and reads inside the array only. *)

Section Loop.
Variable sortedKeys : list Z.
Variable dayTs : Z.
Hypothesis Hsize : Z.of_nat (length sortedKeys) <= 2 ^ 30.

Lemma bsearch_safe (fuel : nat) :
  forall (lo hi : Z) (st : search),
    0 <= lo -> hi < Z.of_nat (length sortedKeys) ->
    hi - lo + 1 <= Z.of_nat fuel ->
    exists st', bsearch fuel sortedKeys dayTs lo hi st = Some st'
      /\ (exists extra, reads st' = reads st ++ extra
            /\ Forall (inBounds sortedKeys) extra)
      /\ (best st' = best st \/ inBounds sortedKeys (best st')).
Proof.
  induction fuel as [| fuel IH]; intros lo hi st Hlo Hhi Hfuel.
  - simpl. destruct (Z.leb_spec lo hi); [lia |].
    exists st. split; [done |]. split; [| by left].
    exists []. by rewrite app_nil_r.
  - simpl. destruct (Z.leb_spec lo hi) as [Hle | Hgt].
    2: { exists st. split; [done |]. split; [| by left].
         exists []. by rewrite app_nil_r. }
    destruct (sar_midpoint lo hi) as [_ Hmid]; [lia .. |].
    set (mid := sar (lo + hi) 1) in *.
    assert (Hin : inBounds sortedKeys mid) by (unfold inBounds; lia).
    destruct (at_index_inBounds _ _ Hin) as [k Hk]. rewrite Hk.
    destruct (Z.leb_spec k dayTs).
    + destruct (IH (mid + 1) hi
                  {| best := mid; reads := reads st ++ [mid] |})
        as (st' & Hrun & (extra & Hreads & Hextra) & Hbest); [lia .. |].
      exists st'. split; [done |]. split.
      * exists (mid :: extra). simpl in Hreads.
        rewrite Hreads, <- app_assoc. split; [done |].
        by constructor.
      * right. simpl in Hbest. by destruct Hbest as [-> | ?].
    + destruct (IH lo (mid - 1)
                  {| best := best st; reads := reads st ++ [mid] |})
        as (st' & Hrun & (extra & Hreads & Hextra) & Hbest); [lia .. |].
      exists st'. split; [done |]. split; [| done].
      exists (mid :: extra). simpl in Hreads.
      rewrite Hreads, <- app_assoc. split; [done |].
      by constructor.
Qed.

(** On ascending keys the loop leaves in [best] the last index whose key
    is at most [dayTs], or [-1] when there is none. *)
Hypothesis Hsorted : StronglySorted Z.le sortedKeys.

Lemma sortedKeys_mono (i j a b : Z) :
  at_index sortedKeys i = Some a -> at_index sortedKeys j = Some b ->
  i <= j -> a <= b.
Proof.
  rewrite !at_index_Some. intros [Hi Ha] [Hj Hb] Hij.
  apply (ascending_lookup _ Hsorted (Z.to_nat i) (Z.to_nat j)); [done .. |].
  lia.
Qed.

Lemma bsearch_sorted (fuel : nat) :
  forall (lo hi : Z) (st : search),
    0 <= lo <= hi + 1 -> hi < Z.of_nat (length sortedKeys) ->
    hi - lo + 1 <= Z.of_nat fuel ->
    (forall i k, at_index sortedKeys i = Some k -> i < lo -> k <= dayTs) ->
    (forall i k, at_index sortedKeys i = Some k -> hi < i -> dayTs < k) ->
    best st = lo - 1 ->
    exists st', bsearch fuel sortedKeys dayTs lo hi st = Some st'
      /\ splitsAt sortedKeys dayTs (best st').
Proof.
  induction fuel as [| fuel IH]; intros lo hi st Hlo Hhi Hfuel Hlow Hhigh Hb.
  - simpl. destruct (Z.leb_spec lo hi); [lia |].
    exists st. split; [done |]. rewrite Hb.
    split; [lia |]. split; intros i k Hk Hi.
    + apply (Hlow i k Hk). lia.
    + apply (Hhigh i k Hk). lia.
  - simpl. destruct (Z.leb_spec lo hi) as [Hle | Hgt].
    2: { exists st. split; [done |]. rewrite Hb.
         split; [lia |]. split; intros i k Hk Hi.
         - apply (Hlow i k Hk). lia.
         - apply (Hhigh i k Hk). lia. }
    destruct (sar_midpoint lo hi) as [_ Hmid]; [lia .. |].
    set (mid := sar (lo + hi) 1) in *.
    assert (Hin : inBounds sortedKeys mid) by (unfold inBounds; lia).
    destruct (at_index_inBounds _ _ Hin) as [k Hk]. rewrite Hk.
    destruct (Z.leb_spec k dayTs) as [Hkle | Hkgt].
    + apply IH; simpl; try lia; [| done].
      intros i k' Hk' Hi.
      assert (k' <= k) by (apply (sortedKeys_mono i mid); [done .. | lia]).
      lia.
    + apply IH; simpl; try lia; [done |].
      intros i k' Hk' Hi.
      assert (k <= k') by (apply (sortedKeys_mono mid i); [done .. | lia]).
      lia.
Qed.
End Loop.

(** One turn of the loop, and its exit. *)

Lemma bsearch_exit (fuel : nat) (keys : list Z) (dayTs lo hi : Z) (st : search) :
  hi < lo -> bsearch fuel keys dayTs lo hi st = Some st.
Proof.
  intros Hgt. destruct fuel; simpl; by destruct (Z.leb_spec lo hi); [lia |].
Qed.

Lemma bsearch_turn_right (fuel : nat) (keys : list Z) (dayTs lo hi : Z)
    (st : search) (mid k : Z) :
  lo <= hi -> sar (lo + hi) 1 = mid ->
  at_index keys mid = Some k -> k <= dayTs ->
  bsearch (S fuel) keys dayTs lo hi st =
  bsearch fuel keys dayTs (mid + 1) hi
    {| best := mid; reads := reads st ++ [mid] |}.
Proof.
  intros Hle Hmid Hk Hkd. simpl. rewrite Hmid, Hk.
  destruct (Z.leb_spec lo hi); [| lia].
  by destruct (Z.leb_spec k dayTs); [| lia].
Qed.

Lemma bsearch_turn_undefined (fuel : nat) (keys : list Z) (dayTs lo hi : Z)
    (st : search) (mid : Z) :
  lo <= hi -> sar (lo + hi) 1 = mid -> at_index keys mid = None ->
  bsearch (S fuel) keys dayTs lo hi st =
  bsearch fuel keys dayTs lo (mid - 1)
    {| best := best st; reads := reads st ++ [mid] |}.
Proof.
  intros Hle Hmid Hk. simpl. rewrite Hmid, Hk.
  by destruct (Z.leb_spec lo hi); [| lia].
Qed.

(** With [2 ^ 31] keys, all of them at most [dayTs], the second midpoint is
    [(2 ^ 30 + 2 ^ 31 - 1) >> 1], which wraps to a negative index. *)
Lemma lookupRP_run_wraps (n : nat) :
  Z.of_nat n = 2 ^ 31 ->
  lookupRP_run (S (length (replicate n 0))) ∅ (replicate n 0) 0
  = Some (None, [1073741823; -536870913; 1073741823]).
Proof.
  intros Hn. rewrite length_replicate. unfold lookupRP_run.
  change (utcMidnight 0) with 0. cbv zeta.
  rewrite lookup_empty, length_replicate.
  destruct n as [| [| n]]; [lia | lia |].
  assert (Hmid : at_index (replicate (S (S n)) 0) 1073741823 = Some 0).
  { apply at_index_Some. split; [lia |]. apply lookup_replicate_2. lia. }
  rewrite (bsearch_turn_right _ _ _ _ _ _ 1073741823 0); [| lia | | done | lia].
  2: { rewrite Hn. reflexivity. }
  rewrite (bsearch_turn_undefined _ _ _ _ _ _ (-536870913)); [| lia | | ].
  2: { rewrite Hn. reflexivity. }
  2: { unfold at_index. by destruct (Z.ltb_spec (-536870913) 0); [| lia]. }
  rewrite bsearch_exit by lia.
  cbv beta iota delta [best reads]. rewrite Hmid.
  change (0 <=? 1073741823) with true. cbv beta iota.
  reflexivity.
Qed.

(** ** Day maps and their sorted keys *)

Lemma buildDayMap_snoc (raw : list (Z * Q)) (ts : Z) (val : Q) :
  buildDayMap (raw ++ [(ts, val)]) = <[utcMidnight ts := val]> (buildDayMap raw).
Proof. unfold buildDayMap. by rewrite foldl_app. Qed.

Lemma buildDayMap_days (raw : list (Z * Q)) (d : Z) :
  is_Some (buildDayMap raw !! d) <-> d ∈ daysOf raw.
Proof.
  induction raw as [| [ts val] raw IH] using rev_ind.
  - unfold buildDayMap, daysOf. simpl. rewrite lookup_empty.
    split; [by intros [? ?] | by intros ?%elem_of_nil].
  - rewrite buildDayMap_snoc. unfold daysOf in *.
    rewrite fmap_app, elem_of_app, <- IH. simpl.
    rewrite list_elem_of_singleton.
    destruct (decide (utcMidnight ts = d)) as [-> | Hne].
    + rewrite lookup_insert_eq. split; [by right | by eexists].
    + rewrite lookup_insert_ne by done. split; [by left |].
      by intros [? | ?].
Qed.

Lemma elem_of_sortedKeysOf (m : gmap Z Q) (k : Z) :
  k ∈ sortedKeysOf m <-> is_Some (m !! k).
Proof.
  unfold sortedKeysOf. rewrite merge_sort_Permutation, list_elem_of_fmap.
  split.
  - intros [[k' v] [-> Hin]]. apply elem_of_map_to_list in Hin. by eexists.
  - intros [v Hv]. exists (k, v). split; [done |].
    by apply elem_of_map_to_list.
Qed.

Lemma sortedKeysOf_sorted (m : gmap Z Q) :
  StronglySorted Z.le (sortedKeysOf m).
Proof. apply StronglySorted_merge_sort; apply _. Qed.

Lemma sortedKeysOf_NoDup (m : gmap Z Q) : NoDup (sortedKeysOf m).
Proof.
  unfold sortedKeysOf. rewrite merge_sort_Permutation.
  apply NoDup_fst_map_to_list.
Qed.

(** Distinct ascending multiples of a day between [lo] and [hi]: there are
    at most [(hi - lo) / msPerDay + 1] of them. *)
Lemma ascending_days_count (l : list Z) :
  StronglySorted Z.le l -> NoDup l ->
  forall lo hi : Z,
    Forall (fun k => lo <= k <= hi /\ utcMidnight k = k) l ->
    Z.of_nat (length l) * msPerDay <= Z.max 0 (hi - lo + msPerDay).
Proof.
  induction 1 as [| k l Hl IH Hk]; intros Hnd lo hi Hall; simpl length.
  - lia.
  - apply NoDup_cons in Hnd as [Hnotin Hnd].
    apply Forall_cons in Hall as [[Hrange Hday] Hall].
    specialize (IH Hnd (k + msPerDay) hi).
    assert (Hstep : Forall (fun k' => k + msPerDay <= k' <= hi
                                      /\ utcMidnight k' = k') l).
    { rewrite Forall_forall in *. intros k' Hin.
      destruct (Hall k' Hin) as [Hr' Hd']. split; [| done].
      assert (k <= k') by auto.
      assert (k <> k') by (intros ->; done).
      unfold utcMidnight, msPerDay in *.
      assert (k / 86400000 < k' / 86400000) by lia. lia. }
    specialize (IH Hstep). unfold msPerDay in *. lia.
Qed.

Lemma utcMidnight_idem (ts : Z) : utcMidnight (utcMidnight ts) = utcMidnight ts.
Proof.
  unfold utcMidnight, msPerDay. f_equal.
  rewrite Z.mul_comm. by apply Z.div_mul.
Qed.

Lemma utcMidnight_valid (ts : Z) : validTime ts -> validTime (utcMidnight ts).
Proof.
  unfold validTime, utcMidnight, maxTime, msPerDay. intros Hts.
  pose proof (Z.mul_div_le ts 86400000).
  assert (-100000000 <= ts / 86400000) by
    (apply Z.div_le_lower_bound; lia).
  lia.
Qed.

(** A day map built from valid time values has at most 200,000,001 keys,
    one per day of the range of [Date]: far fewer than [2 ^ 30]. *)
Lemma sortedKeysOf_buildDayMap_size (raw : list (Z * Q)) :
  Forall (fun p => validTime p.1) raw ->
  Z.of_nat (length (sortedKeysOf (buildDayMap raw))) <= 200000001.
Proof.
  intros Hvalid.
  pose proof (ascending_days_count _ (sortedKeysOf_sorted (buildDayMap raw))
                (sortedKeysOf_NoDup _) (- maxTime) maxTime) as Hcount.
  unfold maxTime, msPerDay in Hcount. 
  assert (Hkeys : Forall (fun k => - maxTime <= k <= maxTime
                                   /\ utcMidnight k = k)
                    (sortedKeysOf (buildDayMap raw))).
  { rewrite Forall_forall. intros k Hk.
    apply elem_of_sortedKeysOf, buildDayMap_days in Hk.
    unfold daysOf in Hk. apply list_elem_of_fmap in Hk as [[ts v] [-> Hin]].
    rewrite Forall_forall in Hvalid. specialize (Hvalid _ Hin).
    split; [by apply utcMidnight_valid | apply utcMidnight_idem]. }
  specialize (Hcount Hkeys). lia.
Qed.

(** ** [lookupRP] on a map and its ascending keys *)

Lemma lookupRP_of_run (dayMap : gmap Z Q) (sortedKeys : list Z) (t : Z)
    (r : option Q) (reads : list Z) :
  lookupRP_run (S (length sortedKeys)) dayMap sortedKeys t = Some (r, reads) ->
  lookupRP dayMap sortedKeys t = r.
Proof. intros Hrun. unfold lookupRP. by rewrite Hrun. Qed.

Lemma lookupRP_greatest (dayMap : gmap Z Q) (sortedKeys : list Z) (t : Z) :
  Z.of_nat (length sortedKeys) <= 2 ^ 30 ->
  StronglySorted Z.le sortedKeys ->
  (forall k, k ∈ sortedKeys <-> is_Some (dayMap !! k)) ->
  (forall d,
      is_Some (dayMap !! d) -> d <= utcMidnight t ->
      (forall d', is_Some (dayMap !! d') -> d' <= utcMidnight t -> d' <= d) ->
      exists reads,
        lookupRP_run (S (length sortedKeys)) dayMap sortedKeys t
        = Some (dayMap !! d, reads))
  /\ ((forall d, is_Some (dayMap !! d) -> utcMidnight t < d) ->
      exists reads,
        lookupRP_run (S (length sortedKeys)) dayMap sortedKeys t
        = Some (None, reads)).
Proof.
  intros Hsize Hsorted Hkeys. unfold lookupRP_run.
  set (dayTs := utcMidnight t).
  destruct (dayMap !! dayTs) as [exact |] eqn:Hexact.
  { split.
    - intros d Hd Hle Hmax.
      assert (dayTs <= d) by (apply Hmax; [by rewrite Hexact | lia]).
      replace d with dayTs by lia. rewrite Hexact. by eexists.
    - intros Hall. assert (dayTs < dayTs); [| lia].
      apply Hall. by rewrite Hexact. }
  destruct (bsearch_sorted sortedKeys dayTs Hsize Hsorted
              (S (length sortedKeys)) 0 (Z.of_nat (length sortedKeys) - 1)
              {| best := -1; reads := [] |})
    as (st & -> & Hrange & Hlow & Hhigh); [lia .. | | | done |].
  { intros i k Hk Hi. apply at_index_Some in Hk. lia. }
  { intros i k Hk%at_index_Some_inBounds Hi. unfold inBounds in Hk. lia. }
  destruct (Z.leb_spec 0 (best st)) as [Hfound | Hnone].
  - destruct (at_index_inBounds sortedKeys (best st)) as [kb Hkb];
      [unfold inBounds; lia |].
    rewrite Hkb. simpl.
    assert (Hkb_le : kb <= dayTs) by (by apply (Hlow (best st))).
    assert (Hkb_key : is_Some (dayMap !! kb)).
    { apply Hkeys. apply at_index_Some in Hkb as [_ Hkb].
      by eapply list_elem_of_lookup_2. }
    split.
    + intros d Hd Hle Hmax. eexists. do 3 f_equal.
      apply Hkeys, list_elem_of_lookup in Hd as [j Hj].
      assert (Hjz : at_index sortedKeys (Z.of_nat j) = Some d)
        by (apply at_index_Some; rewrite Nat2Z.id; split; [lia | done]).
      assert (Z.of_nat j <= best st).
      { destruct (Z.le_gt_cases (Z.of_nat j) (best st)); [done |].
        assert (dayTs < d) by (apply (Hhigh (Z.of_nat j)); [done | lia]).
        lia. }
      assert (d <= kb)
        by (by apply (sortedKeys_mono sortedKeys Hsorted (Z.of_nat j) (best st))).
      assert (kb <= d) by (by apply Hmax).
      lia.
    + intros Hall. specialize (Hall kb Hkb_key). lia.
  - split; [| by eexists].
    intros d Hd Hle Hmax.
    apply Hkeys, list_elem_of_lookup in Hd as [j Hj].
    assert (dayTs < d); [| lia].
    apply (Hhigh (Z.of_nat j)); [| lia].
    apply at_index_Some. rewrite Nat2Z.id. split; [lia | done].
Qed.

(** C1.  Forward fill: on the day map built from a raw series of valid time
    values, with its ascending keys, a query at a valid time [t] ends and
    returns the value stored at the latest day of the series that is not
    after the UTC day of [t] (the day itself when the series has it), and
    [null] when every day of the series is after it. *)
Theorem lookupRP_forward_fill (raw : list (Z * Q)) (t : Z) :
  Forall (fun p => validTime p.1) raw -> validTime t ->
  let dayMap := buildDayMap raw in
  let sortedKeys := sortedKeysOf dayMap in
  (forall d,
      d ∈ daysOf raw -> d <= utcMidnight t ->
      Forall (fun d' => d' <= utcMidnight t -> d' <= d) (daysOf raw) ->
      is_Some (dayMap !! d)
      /\ (exists reads,
            lookupRP_run (S (length sortedKeys)) dayMap sortedKeys t
            = Some (dayMap !! d, reads))
      /\ lookupRP dayMap sortedKeys t = dayMap !! d)
  /\ (Forall (fun d => utcMidnight t < d) (daysOf raw) ->
      (exists reads,
          lookupRP_run (S (length sortedKeys)) dayMap sortedKeys t
          = Some (None, reads))
      /\ lookupRP dayMap sortedKeys t = None).
Proof.
  intros Hvalid _ dayMap sortedKeys.
  destruct (lookupRP_greatest dayMap sortedKeys t) as [Hfill Hbefore].
  { pose proof (sortedKeysOf_buildDayMap_size raw Hvalid) as Hcount.
    fold dayMap sortedKeys in Hcount. lia. }
  { apply sortedKeysOf_sorted. }
  { apply elem_of_sortedKeysOf. }
  split.
  - intros d Hd Hle Hmax.
    assert (Hkey : is_Some (dayMap !! d)) by (by apply buildDayMap_days).
    split; [done |].
    destruct (Hfill d Hkey Hle) as [reads Hrun].
    + intros d' Hd'%buildDayMap_days. rewrite Forall_forall in Hmax. auto.
    + split; [by exists reads | by apply (lookupRP_of_run _ _ _ _ reads)].
  - intros Hall. destruct Hbefore as [reads Hrun].
    + intros d Hd%buildDayMap_days. rewrite Forall_forall in Hall. auto.
    + split; [by exists reads | by apply (lookupRP_of_run _ _ _ _ reads)].
Qed.

(** C10, as amended.  Totality and in-bounds reads: with at most [2 ^ 30]
    keys, whatever the map, the keys and the timestamp, the loop of
    [lookupRP] ends within its fuel, [lookupRP] returns the value of the run,
    every index at which [sortedKeys] is read lies inside the array, the
    index the search selects is [-1] or lies inside the array, and on an
    empty [sortedKeys] the answer is [null] unless the day is a key of the
    map. *)
Theorem lookupRP_total_in_bounds (dayMap : gmap Z Q) (sortedKeys : list Z)
    (timestampMs : Z) :
  Z.of_nat (length sortedKeys) <= 2 ^ 30 ->
  (exists r reads,
      lookupRP_run (S (length sortedKeys)) dayMap sortedKeys timestampMs
      = Some (r, reads)
      /\ lookupRP dayMap sortedKeys timestampMs = r
      /\ Forall (inBounds sortedKeys) reads
      /\ (sortedKeys = [] -> dayMap !! utcMidnight timestampMs = None ->
          r = None))
  /\ (exists st,
        bsearch (S (length sortedKeys)) sortedKeys (utcMidnight timestampMs)
          0 (Z.of_nat (length sortedKeys) - 1) {| best := -1; reads := [] |}
        = Some st
        /\ (best st = -1 \/ inBounds sortedKeys (best st))).
Proof.
  intros Hsize.
  destruct (bsearch_safe sortedKeys (utcMidnight timestampMs) Hsize
              (S (length sortedKeys)) 0 (Z.of_nat (length sortedKeys) - 1)
              {| best := -1; reads := [] |})
    as (st & Hrun & (extra & Hreads & Hextra) & Hbest); [lia .. |].
  simpl in Hreads, Hbest. split; [| by exists st].
  unfold lookupRP, lookupRP_run.
  destruct (dayMap !! utcMidnight timestampMs) as [exact |] eqn:Hexact.
  { exists (Some exact), []. by repeat split. }
  rewrite Hrun. destruct (Z.leb_spec 0 (best st)) as [Hfound | Hnone].
  - eexists _, _. split; [done |]. split; [done |]. split.
    + rewrite Hreads. apply Forall_app. split; [done |].
      apply Forall_singleton. destruct Hbest as [Hb | Hb]; [lia | done].
    + intros -> _. destruct Hbest as [Hb | Hb]; [lia |].
      unfold inBounds in Hb. simpl in Hb. lia.
  - exists None, (reads st). rewrite Hreads. by repeat split.
Qed.

(** ** Windowing *)

Lemma startDate_eq : startDate = 1514764800.
Proof. reflexivity. Qed.

Lemma keepPoint_spec (d : Price.point) :
  keepPoint d = true <-> 1514764800 <= Price.x d /\ (0 < Price.y d)%Q.
Proof.
  unfold keepPoint. rewrite startDate_eq, andb_true_iff, negb_true_iff.
  rewrite Z.leb_le, <- not_true_iff_false, Qle_bool_iff.
  split; intros [Hx Hy]; (split; [done |]).
  - by apply Qnot_le_lt.
  - by apply Qlt_not_le.
Qed.

(** C6.  Windowing: [startDate] is 2018-01-01T00:00:00Z in unix seconds, and
    the filtered sequence holds exactly the input points with [x >= startDate]
    and [y > 0]: a point failing either test is left out, a point passing
    both is kept; the filter keeps the order of arrival and works point by
    point, so nothing that passes is dropped. *)
Theorem filteredOf_window :
  startDate * 1000 = Date_UTC 2018 0 1
  /\ startDate = 1514764800
  /\ (forall (historicalPrices : list Price.point) (d : Price.point),
        d ∈ filteredOf historicalPrices <->
        d ∈ historicalPrices /\ startDate <= Price.x d /\ (0 < Price.y d)%Q)
  /\ (forall historicalPrices : list Price.point,
        filteredOf historicalPrices `sublist_of` historicalPrices)
  /\ (forall l1 l2 : list Price.point,
        filteredOf (l1 ++ l2) = filteredOf l1 ++ filteredOf l2).
Proof.
  split; [reflexivity |]. split; [reflexivity |].
  unfold filteredOf. split; [| split].
  - intros historicalPrices d.
    rewrite !list_elem_of_In, filter_In, keepPoint_spec.
    by rewrite startDate_eq.
  - intros historicalPrices.
    induction historicalPrices as [| d l IH]; simpl; [done |].
    destruct (keepPoint d); by constructor.
  - intros l1 l2. apply List.filter_app.
Qed.

(** ** Resampling *)

(** The points kept by the stride, counted from an arbitrary first index. *)
Lemma filter_index_stride {A} (a : list A) :
  forall i j : nat,
    filter_index (fun i => Z.of_nat i mod 4 =? 0) i a !! j
    = a !! Z.to_nat ((- Z.of_nat i) mod 4 + 4 * Z.of_nat j).
Proof.
  induction a as [| d a IH]; intros i j; simpl; [done |].
  destruct (Z.eqb_spec (Z.of_nat i mod 4) 0) as [H0 | H0].
  - destruct j as [| j].
    + replace (Z.to_nat _) with 0%nat by lia_mod. done.
    + replace (Z.to_nat _)
        with (S (Z.to_nat ((- Z.of_nat (S i)) mod 4 + 4 * Z.of_nat j)))
        by lia_mod.
      simpl. apply IH.
  - replace (Z.to_nat _)
      with (S (Z.to_nat ((- Z.of_nat (S i)) mod 4 + 4 * Z.of_nat j)))
      by lia_mod.
    simpl. apply IH.
Qed.

Lemma everyFourth_lookup (filtered : list Price.point) (j : nat) :
  everyFourth filtered !! j = filtered !! (4 * j)%nat.
Proof.
  unfold everyFourth. rewrite filter_index_stride. f_equal. lia_mod.
Qed.

Lemma everyFourth_length (filtered : list Price.point) :
  (4 * length (everyFourth filtered) < length filtered + 4
   /\ length filtered <= 4 * length (everyFourth filtered))%nat.
Proof.
  split.
  - destruct (length (everyFourth filtered)) as [| n] eqn:Hn; [lia |].
    assert (Hs : is_Some (everyFourth filtered !! n))
      by (apply lookup_lt_is_Some; lia).
    rewrite everyFourth_lookup in Hs. apply lookup_lt_is_Some in Hs. lia.
  - pose proof (lookup_ge_None_2 (everyFourth filtered)
                  (length (everyFourth filtered)) (Nat.le_refl _)) as Hn.
    rewrite everyFourth_lookup in Hn. by apply lookup_ge_None in Hn.
Qed.





(** ** Rounding and the bands *)

Lemma Math_round_bounds (v : Q) :
  (inject_Z (Math_round v) <= v + (1 # 2) < inject_Z (Math_round v) + 1)%Q.
Proof.
  unfold Math_round. split; [apply Qfloor_le |].
  pose proof (Qlt_floor (v + (1 # 2))) as H.
  by rewrite inject_Z_plus in H.
Qed.

Lemma Math_round_inject_Z (z : Z) : Math_round (inject_Z z) = z.
Proof.
  pose proof (Math_round_bounds (inject_Z z)) as [H1 H2].
  assert (Hle : (inject_Z (Math_round (inject_Z z)) < inject_Z (z + 1))%Q)
    by (rewrite inject_Z_plus; change (inject_Z 1) with 1%Q; lra).
  assert (Hge : (inject_Z z < inject_Z (Math_round (inject_Z z) + 1))%Q)
    by (rewrite inject_Z_plus; change (inject_Z 1) with 1%Q; lra).
  rewrite <- Zlt_Qlt in Hle, Hge. lia.
Qed.

(** Once the rounded realized price is at least 5 the independently rounded
    bands are strictly ordered. *)
Lemma bandsOf_chain (v : Q) (r : CompositeRecord) :
  bandsOf v r -> 5 <= rp r -> bandChain r.
Proof.
  unfold bandChain. intros (-> & -> & -> & -> & -> & ->) H5.
  pose proof (Math_round_bounds v) as [? ?].
  pose proof (Math_round_bounds (v * 0.8)) as [? ?].
  pose proof (Math_round_bounds (v * 1.25)) as [? ?].
  pose proof (Math_round_bounds (v * 1.7)) as [? ?].
  pose proof (Math_round_bounds (v * 2.4)) as [? ?].
  pose proof (Math_round_bounds (v * 3.2)) as [? ?].
  rewrite Zle_Qle in H5. change (inject_Z 5) with 5%Q in H5.
  rewrite !Zlt_Qlt. repeat split; lra.
Qed.

(** The bound is the least one: a realized price of 4.4 is rounded to 4, and
    so is its 0.8 band. *)
Lemma bands_tie_below_five :
  Math_round 4.4 = 4 /\ Math_round (4.4 * 0.8) = 4.
Proof. split; reflexivity. Qed.

Lemma chartPoint_bands rpMap rpKeys sthMap sthKeys lthMap lthKeys d :
  exists v, bandsOf v (chartPoint rpMap rpKeys sthMap sthKeys lthMap lthKeys d).
Proof. eexists. by repeat split. Qed.

Lemma livePoint_bands rpMap rpKeys sthMap sthKeys lthMap lthKeys
    latestRP latestSTH latestLTH livePrice now :
  exists v, bandsOf v (livePoint rpMap rpKeys sthMap sthKeys lthMap lthKeys
                         latestRP latestSTH latestLTH livePrice now).
Proof. eexists. by repeat split. Qed.

(** ** The live tick *)

Lemma pushOrReplace_append chartData lastChartTs now point :
  12 * 60 * 60 * 1000 < now - lastChartTs ->
  pushOrReplace chartData lastChartTs now point = chartData ++ [point].
Proof.
  intros Hlate. unfold pushOrReplace.
  by destruct (Z.ltb_spec (12 * 60 * 60 * 1000) (now - lastChartTs)); [| lia].
Qed.

Lemma pushOrReplace_overwrite chartData lastChartTs now point :
  chartData <> [] ->
  now - lastChartTs <= 12 * 60 * 60 * 1000 ->
  pushOrReplace chartData lastChartTs now point
  = removelast chartData ++ [point].
Proof.
  intros Hne Hsoon. unfold pushOrReplace.
  destruct (Z.ltb_spec (12 * 60 * 60 * 1000) (now - lastChartTs)); [lia |].
  destruct (exists_last Hne) as (front & lastRecord & ->).
  rewrite removelast_last, length_app. simpl.
  replace (Nat.pred (length front + 1)) with (length front + 0)%nat by lia.
  by rewrite insert_app_r.
Qed.

Lemma liveTick_elem rpMap rpKeys sthMap sthKeys lthMap lthKeys
    latestRP latestSTH latestLTH livePrice now chartData r :
  r ∈ liveTick rpMap rpKeys sthMap sthKeys lthMap lthKeys
        latestRP latestSTH latestLTH livePrice now chartData ->
  r ∈ chartData
  \/ exists p, r = livePoint rpMap rpKeys sthMap sthKeys lthMap lthKeys
                     latestRP latestSTH latestLTH p now.
Proof.
  unfold liveTick. destruct livePrice as [p |]; [| by left].
  destruct (last chartData) as [lastRecord |] eqn:Hlast; [| by left].
  destruct (truthy p); [| by left].
  assert (Hne : chartData <> []) by (by intros ->).
  destruct (Z.le_gt_cases (now - date lastRecord) (12 * 60 * 60 * 1000)).
  - rewrite pushOrReplace_overwrite by done.
    rewrite elem_of_app, list_elem_of_singleton. intros [Hin | ->].
    + left. destruct (exists_last Hne) as (front & x & ->).
      rewrite removelast_last in Hin. apply elem_of_app. by left.
    + right. by exists p.
  - rewrite pushOrReplace_append by lia.
    rewrite elem_of_app, list_elem_of_singleton. intros [Hin | ->].
    + by left.
    + right. by exists p.
Qed.

Lemma truthy_spec (v : Q) : truthy v = true <-> ~ (v == 0)%Q.
Proof.
  unfold truthy, Qeq. simpl. rewrite negb_true_iff, Z.eqb_neq. lia.
Qed.

Lemma roundOrNull_zero (v : Q) : (v == 0)%Q -> roundOrNull (Some v) = None.
Proof.
  intros Hv. simpl. destruct (truthy v) eqn:Ht; [| done].
  by apply truthy_spec in Ht.
Qed.

(** ** The handler as a whole *)

Lemma validTimeb_spec (t : Z) : validTimeb t = true <-> validTime t.
Proof. unfold validTimeb, validTime. rewrite andb_true_iff, !Z.leb_le. done. Qed.

(** What a successful call returns. *)
Lemma GET_Success_inv realizedPriceRaw sthRPRaw lthRPRaw historicalPrices
    livePrice now clock body :
  GET realizedPriceRaw sthRPRaw lthRPRaw historicalPrices livePrice now clock
  = Success body ->
  exists rpRaw hist latestRPEntry,
    realizedPriceRaw = Some rpRaw /\ historicalPrices = Some hist
    /\ 100 <= Z.of_nat (length rpRaw) /\ 100 <= Z.of_nat (length hist)
    /\ last rpRaw = Some latestRPEntry /\ validTime latestRPEntry.1
    /\ data body
       = liveTick (buildDayMap rpRaw) (sortedKeysOf (buildDayMap rpRaw))
           (cohortMap sthRPRaw) (cohortKeys (cohortMap sthRPRaw))
           (cohortMap lthRPRaw) (cohortKeys (cohortMap lthRPRaw))
           (Math_round latestRPEntry.2) (latestOf sthRPRaw) (latestOf lthRPRaw)
           livePrice now (chartDataOf rpRaw sthRPRaw lthRPRaw hist)
    /\ latestPrice body
       = Math_round (currentPriceOf livePrice (last (filteredOf hist))
                       (chartDataOf rpRaw sthRPRaw lthRPRaw hist))
    /\ dataPoints body = Z.of_nat (length (data body)).
Proof.
  unfold GET. intros Hget.
  destruct realizedPriceRaw as [rpRaw |]; [| done].
  destruct (Z.ltb_spec (Z.of_nat (length rpRaw)) 100); [done |].
  destruct historicalPrices as [hist |]; [| done].
  destruct (Z.ltb_spec (Z.of_nat (length hist)) 100); [done |].
  destruct (last rpRaw) as [latestRPEntry |] eqn:Hlast; [| done].
  destruct (validTimeb latestRPEntry.1) eqn:Hvalid; [| done].
  simpl in Hget. injection Hget as <-.
  exists rpRaw, hist, latestRPEntry.
  apply validTimeb_spec in Hvalid. by repeat (split; [done |]).
Qed.

(** The gate passed and the latest valuation point valid: the call
    succeeds. *)
Lemma GET_succeeds rpRaw sthRPRaw lthRPRaw hist livePrice now clock
    latestRPEntry :
  100 <= Z.of_nat (length rpRaw) -> 100 <= Z.of_nat (length hist) ->
  last rpRaw = Some latestRPEntry -> validTime latestRPEntry.1 ->
  exists body,
    GET (Some rpRaw) sthRPRaw lthRPRaw (Some hist) livePrice now clock
    = Success body.
Proof.
  intros Hrp Hhist Hlast Hvalid%validTimeb_spec. unfold GET.
  destruct (Z.ltb_spec (Z.of_nat (length rpRaw)) 100); [lia |].
  destruct (Z.ltb_spec (Z.of_nat (length hist)) 100); [lia |].
  rewrite Hlast, Hvalid. simpl. by eexists.
Qed.

(** C2, as amended.  The gate counts raw points, not normalized days: the
    call answers with the 502 failure, an error object without data,
    exactly when the primary valuation series is absent or has fewer than
    100 raw points, or the historical price series is absent or has fewer
    than 100 points. *)
Theorem GET_gate realizedPriceRaw sthRPRaw lthRPRaw historicalPrices
    livePrice now clock :
  (exists error,
      GET realizedPriceRaw sthRPRaw lthRPRaw historicalPrices livePrice
        now clock = Failure 502 error)
  <-> from_option (fun raw => Z.of_nat (length raw) < 100) True
        realizedPriceRaw
      \/ from_option (fun hist => Z.of_nat (length hist) < 100) True
           historicalPrices.
Proof.
  unfold GET. split.
  - intros [error Hget].
    destruct realizedPriceRaw as [rpRaw |]; [| by left]. simpl.
    destruct (Z.ltb_spec (Z.of_nat (length rpRaw)) 100); [by left |].
    destruct historicalPrices as [hist |]; [| by right]. simpl.
    destruct (Z.ltb_spec (Z.of_nat (length hist)) 100); [by right |].
    destruct (last rpRaw) as [latestRPEntry |]; [| done].
    by destruct (validTimeb latestRPEntry.1).
  - intros Hgate.
    destruct realizedPriceRaw as [rpRaw |]; [| by eexists].
    destruct (Z.ltb_spec (Z.of_nat (length rpRaw)) 100); [by eexists |].
    destruct historicalPrices as [hist |]; [| by eexists].
    destruct (Z.ltb_spec (Z.of_nat (length hist)) 100); [by eexists |].
    simpl in Hgate. lia.
Qed.

(** C3, as amended.  Band monotonicity: in every record of a successful
    response, from the merge step or from the live tick, whose [rp] field is
    at least 5, the bands are strictly ordered,
    [rp_0_8 < rp < rp_1_25 < rp_1_7 < rp_2_4 < rp_3_2]. *)
Theorem band_monotonicity realizedPriceRaw sthRPRaw lthRPRaw historicalPrices
    livePrice now clock body r :
  GET realizedPriceRaw sthRPRaw lthRPRaw historicalPrices livePrice now clock
  = Success body ->
  r ∈ data body -> 5 <= rp r -> bandChain r.
Proof.
  intros Hget Hr H5.
  apply GET_Success_inv in Hget
    as (rpRaw & hist & e & _ & _ & _ & _ & _ & _ & Hdata & _).
  rewrite Hdata in Hr. apply liveTick_elem in Hr as [Hr | [p ->]].
  - unfold chartDataOf in Hr. apply list_elem_of_fmap in Hr as [d [-> _]].
    destruct (chartPoint_bands (buildDayMap rpRaw)
                (sortedKeysOf (buildDayMap rpRaw))
                (cohortMap sthRPRaw) (cohortKeys (cohortMap sthRPRaw))
                (cohortMap lthRPRaw) (cohortKeys (cohortMap lthRPRaw)) d)
      as [v Hv].
    by apply (bandsOf_chain v).
  - destruct (livePoint_bands (buildDayMap rpRaw)
                (sortedKeysOf (buildDayMap rpRaw))
                (cohortMap sthRPRaw) (cohortKeys (cohortMap sthRPRaw))
                (cohortMap lthRPRaw) (cohortKeys (cohortMap lthRPRaw))
                (Math_round e.2) (latestOf sthRPRaw) (latestOf lthRPRaw) p now)
      as [v Hv].
    by apply (bandsOf_chain v).
Qed.

(** C5, as amended.  Replace or append, for a non-empty merged sequence
    whose last record is [lastRecord]: without a live price the sequence is
    returned unchanged; with a live price other than zero the candidate
    carries the tick's time and its rounded price, and it is appended when
    [now - date lastRecord] exceeds twelve hours (the length grows by one
    and the new last date is [now]) and otherwise takes the place of the last
    record, the earlier records and the length staying as they were; with a
    live price of exactly zero the sequence is returned unchanged. *)
Theorem liveTick_replace_or_append rpMap rpKeys sthMap sthKeys lthMap lthKeys
    latestRP latestSTH latestLTH chartData lastRecord :
  last chartData = Some lastRecord ->
  (forall now,
      liveTick rpMap rpKeys sthMap sthKeys lthMap lthKeys
        latestRP latestSTH latestLTH None now chartData = chartData)
  /\ (forall (p : Q) (now : Z),
        (p == 0)%Q ->
        liveTick rpMap rpKeys sthMap sthKeys lthMap lthKeys
          latestRP latestSTH latestLTH (Some p) now chartData = chartData)
  /\ forall (p : Q) (now : Z),
      ~ (p == 0)%Q ->
      let candidate :=
        livePoint rpMap rpKeys sthMap sthKeys lthMap lthKeys
          latestRP latestSTH latestLTH p now in
      let output :=
        liveTick rpMap rpKeys sthMap sthKeys lthMap lthKeys
          latestRP latestSTH latestLTH (Some p) now chartData in
      date candidate = now /\ price candidate = Math_round p
      /\ (43200000 < now - date lastRecord ->
          output = chartData ++ [candidate]
          /\ length output = S (length chartData)
          /\ date <$> last output = Some now)
      /\ (now - date lastRecord <= 43200000 ->
          output = removelast chartData ++ [candidate]
          /\ length output = length chartData
          /\ last output = Some candidate).
Proof.
  intros Hlast. split; [done |]. split.
  { intros p now Hzero. unfold liveTick. rewrite Hlast.
    destruct (truthy p) eqn:Hp; [| done]. by apply truthy_spec in Hp. }
  intros p now Hp%truthy_spec candidate output.
  assert (Hne : chartData <> []) by (by intros ->).
  assert (Hout : output = pushOrReplace chartData (date lastRecord) now
                            candidate).
  { unfold output, liveTick. by rewrite Hlast, Hp. }
  split; [done |]. split; [done |]. split.
  - intros Hlate. rewrite Hout, pushOrReplace_append by lia.
    rewrite length_app, last_snoc. simpl. split; [done |]. split; [lia | done].
  - intros Hsoon. rewrite Hout, pushOrReplace_overwrite by (done || lia).
    rewrite length_app, last_snoc. simpl. split; [done |]. split; [| done].
    destruct (exists_last Hne) as (front & x & ->).
    rewrite removelast_last, length_app. simpl. lia.
Qed.

(** ** The current price *)

Lemma sampledOf_nil : sampledOf [] = [].
Proof. reflexivity. Qed.

(** C8.  Current-price precedence, on a call that passes the gate: the
    response succeeds; its [latestPrice] is the rounded live price when the
    live fetch returned a value; failing that, the rounded price of the last
    filtered historical point when there is one; failing that, the price of
    the last merged record when the sequence is non-empty, else zero (with
    no filtered point the merged sequence is empty, so this last case always
    gives zero). *)
Theorem latestPrice_precedence rpRaw sthRPRaw lthRPRaw hist livePrice now clock
    latestRPEntry :
  100 <= Z.of_nat (length rpRaw) -> 100 <= Z.of_nat (length hist) ->
  last rpRaw = Some latestRPEntry -> validTime latestRPEntry.1 ->
  exists body,
    GET (Some rpRaw) sthRPRaw lthRPRaw (Some hist) livePrice now clock
    = Success body
    /\ (forall p, livePrice = Some p -> latestPrice body = Math_round p)
    /\ (forall h,
          livePrice = None -> last (filteredOf hist) = Some h ->
          latestPrice body = Math_round (Price.y h))
    /\ (livePrice = None -> last (filteredOf hist) = None ->
        latestPrice body
        = match last (chartDataOf rpRaw sthRPRaw lthRPRaw hist) with
          | Some r => price r
          | None => 0
          end
        /\ chartDataOf rpRaw sthRPRaw lthRPRaw hist = []).
Proof.
  intros Hrp Hhist Hlast Hvalid.
  destruct (GET_succeeds rpRaw sthRPRaw lthRPRaw hist livePrice now clock
              latestRPEntry Hrp Hhist Hlast Hvalid) as [body Hget].
  exists body. split; [done |].
  apply GET_Success_inv in Hget
    as (rpRaw' & hist' & e & [= <-] & [= <-] & _ & _ & _ & _ & _ & Hprice & _).
  rewrite Hprice. split; [| split].
  - by intros p ->.
  - intros h -> Hh. simpl. by rewrite Hh.
  - intros -> Hnone. simpl. rewrite Hnone.
    destruct (last (chartDataOf rpRaw sthRPRaw lthRPRaw hist)) as [r |] eqn:Hr.
    + split; [apply Math_round_inject_Z |].
      apply last_None in Hnone. unfold chartDataOf in Hr.
      by rewrite Hnone, sampledOf_nil in Hr.
    + split; [done |]. by apply last_None.
Qed.

(** ** Cohort fields *)

(** Without the keys of a cohort series there is no latest cohort value
    either: the fallback of the live candidate is [null]. *)
Lemma cohort_absent_latest (raw : option (list (Z * Q))) :
  cohortKeys (cohortMap raw) = None -> latestOf raw = None.
Proof.
  destruct raw as [r |]; [| done]. simpl.
  destruct r as [| e r _] using rev_ind; [done |].
  rewrite length_app. simpl.
  destruct (Z.ltb_spec 0 (Z.of_nat (length r + 1))); [| lia]. simpl.
  destruct e as [ts val]. rewrite buildDayMap_snoc.
  destruct (Z.ltb_spec 0 (Z.of_nat (size (<[utcMidnight ts:=val]>
                                            (buildDayMap r)))))
    as [| Hsize]; [done |].
  assert (Hempty : size (<[utcMidnight ts:=val]> (buildDayMap r)) = 0%nat)
    by lia.
  apply map_size_empty_iff in Hempty.
  by apply insert_non_empty in Hempty.
Qed.

(** C9.  A cohort reading of exactly zero collapses to absence: when the
    lookup in a cohort series returns the present value 0, the [sth_rp]
    (respectively [lth_rp]) field of the record is [null], in the merge step
    and in the live candidate alike, which is also the field of a record
    built without that cohort series (whose latest value is then [null]
    too). *)
Theorem cohort_zero_is_null (cohort : gmap Z Q) (keys : list Z) (v : Q)
    (ts : Z) rpMap rpKeys otherMap otherKeys :
  lookupRP cohort keys ts = Some v -> (v == 0)%Q ->
  (forall d, Price.x d * 1000 = ts ->
     sth_rp (chartPoint rpMap rpKeys (Some cohort) (Some keys)
               otherMap otherKeys d) = None
     /\ sth_rp (chartPoint rpMap rpKeys None None otherMap otherKeys d) = None
     /\ lth_rp (chartPoint rpMap rpKeys otherMap otherKeys
                  (Some cohort) (Some keys) d) = None
     /\ lth_rp (chartPoint rpMap rpKeys otherMap otherKeys None None d) = None)
  /\ (forall latestRP latestSTH latestLTH livePrice,
        sth_rp (livePoint rpMap rpKeys (Some cohort) (Some keys)
                  otherMap otherKeys latestRP latestSTH latestLTH
                  livePrice ts) = None
        /\ sth_rp (livePoint rpMap rpKeys None None otherMap otherKeys
                     latestRP None latestLTH livePrice ts) = None
        /\ lth_rp (livePoint rpMap rpKeys otherMap otherKeys
                     (Some cohort) (Some keys) latestRP latestSTH latestLTH
                     livePrice ts) = None
        /\ lth_rp (livePoint rpMap rpKeys otherMap otherKeys None None
                     latestRP latestSTH None livePrice ts) = None)
  /\ (forall raw, cohortKeys (cohortMap raw) = None -> latestOf raw = None).
Proof.
  intros Hlookup Hzero. split; [| split].
  - intros d <-. unfold chartPoint. simpl. rewrite Hlookup.
    by rewrite roundOrNull_zero.
  - intros latestRP latestSTH latestLTH livePrice. unfold livePoint. simpl.
    rewrite Hlookup. by rewrite roundOrNull_zero.
  - apply cohort_absent_latest.
Qed.

(** ** The end-to-end example *)

Lemma lookupRP_exact (dayMap : gmap Z Q) (sortedKeys : list Z) (t : Z) (v : Q) :
  dayMap !! utcMidnight t = Some v -> lookupRP dayMap sortedKeys t = Some v.
Proof. intros Hv. unfold lookupRP, lookupRP_run. by rewrite Hv. Qed.

Lemma utcMidnight_add_days (ts n : Z) :
  utcMidnight (ts + n * msPerDay) = utcMidnight ts + n * msPerDay.
Proof.
  unfold utcMidnight. rewrite Z.div_add by (unfold msPerDay; lia). lia.
Qed.

(** C7, as amended.  The end-to-end example, for a day [d0] (unix seconds)
    on or after 2018-01-01 whose tenth day after is still a valid time
    value: a valuation series of the two days [d0] and
    [d0 + 10 days] and two price points do not pass the gate, so the call
    answers with the 502 failure; the merge step run on these inputs yields
    exactly the two records of the example. *)
Theorem end_to_end_example (d0 now clock : Z) :
  startDate <= d0 -> validTime ((d0 + 864000) * 1000) ->
  GET (Some (twoDaySeries d0)) None None (Some (twoDayPrices d0)) None
    now clock
  = Failure 502 "Failed to fetch on-chain realized price data"
  /\ chartDataOf (twoDaySeries d0) None None (twoDayPrices d0)
     = [ {| date := d0 * 1000; price := 21000; rp := 20000;
            rp_0_8 := 16000; rp_1_25 := 25000; rp_1_7 := 34000;
            rp_2_4 := 48000; rp_3_2 := 64000;
            sth_rp := None; lth_rp := None |};
         {| date := (d0 + 864000) * 1000; price := 23500; rp := 22000;
            rp_0_8 := 17600; rp_1_25 := 27500; rp_1_7 := 37400;
            rp_2_4 := 52800; rp_3_2 := 70400;
            sth_rp := None; lth_rp := None |} ].
Proof.
  intros Hd0 _. split; [reflexivity |].
  unfold chartDataOf, twoDayPrices.
  assert (Hfiltered : filteredOf (twoDayPrices d0) = twoDayPrices d0).
  { unfold filteredOf, twoDayPrices. simpl.
    rewrite !(proj2 (keepPoint_spec _)); [done | |];
      rewrite <- startDate_eq; simpl; (split; [lia | done]). }
  unfold twoDayPrices in Hfiltered. rewrite Hfiltered.
  assert (Hsampled : sampledOf (twoDayPrices d0) = twoDayPrices d0).
  { unfold sampledOf, twoDayPrices. simpl.
    by destruct (Z.eqb_spec d0 (d0 + 864000)); [lia |]. }
  unfold twoDayPrices in Hsampled. rewrite Hsampled.
  assert (Hday : utcMidnight ((d0 + 864000) * 1000)
                 = utcMidnight (d0 * 1000) + 10 * msPerDay).
  { rewrite <- utcMidnight_add_days. f_equal. unfold msPerDay. lia. }
  assert (Hmap0 : buildDayMap (twoDaySeries d0) !! utcMidnight (d0 * 1000)
                  = Some 20000%Q).
  { unfold buildDayMap, twoDaySeries. simpl. rewrite Hday.
    rewrite lookup_insert_ne by (unfold msPerDay; lia).
    apply lookup_insert_eq. }
  assert (Hmap10 : buildDayMap (twoDaySeries d0)
                     !! utcMidnight ((d0 + 864000) * 1000)
                   = Some 22000%Q).
  { unfold buildDayMap, twoDaySeries. simpl. apply lookup_insert_eq. }
  simpl. unfold chartPoint. simpl.
  rewrite (lookupRP_exact _ _ _ _ Hmap0), (lookupRP_exact _ _ _ _ Hmap10).
  reflexivity.
Qed.

(** * Concrete runs *)

(** C1 at a series with two points on one day: a query two days after the
    doubled day is answered with the later of its two values, a query before
    the first day with [null]. *)
Lemma lookupRP_forward_fill_witness :
  Forall (fun p => validTime p.1) doubledDaySeries
  /\ lookupRP (buildDayMap doubledDaySeries)
       (sortedKeysOf (buildDayMap doubledDaySeries)) (5 * msPerDay + 3)
     = Some 2.5%Q
  /\ lookupRP (buildDayMap doubledDaySeries)
       (sortedKeysOf (buildDayMap doubledDaySeries)) (-1) = None.
Proof.
  assert (Hvalid : Forall (fun p => validTime p.1) doubledDaySeries)
    by (repeat constructor; vm_compute; discriminate).
  split; [exact Hvalid |]. split.
  - assert (Ht : validTime (5 * msPerDay + 3))
      by (split; vm_compute; discriminate).
    destruct (lookupRP_forward_fill doubledDaySeries (5 * msPerDay + 3)
                Hvalid Ht) as [Hfill _].
    destruct (Hfill (3 * msPerDay)) as (_ & _ & ->).
    + vm_compute. do 2 right. left.
    + vm_compute. discriminate.
    + repeat constructor; vm_compute; intros H; try discriminate;
        exfalso; by apply H.
    + reflexivity.
  - assert (Ht : validTime (-1)) by (split; vm_compute; discriminate).
    destruct (lookupRP_forward_fill doubledDaySeries (-1) Hvalid Ht)
      as [_ Hbefore].
    apply Hbefore. repeat constructor.
Defined.

(** C2: a hundred valuation points on a single day are one normalized day,
    and the call succeeds all the same. *)
Lemma GET_gate_counterexample :
  length (sortedKeysOf (buildDayMap (oneDaySeries 1))) = 1%nat
  /\ exists body,
      GET (Some (oneDaySeries 1)) None None (Some dailyPrices) None 0 0
      = Success body
      /\ length (data body) = 26%nat.
Proof. split; [by vm_compute |]. eexists. split; by vm_compute. Qed.

Lemma GET_gate_witness :
  exists error,
    GET (Some (twoDaySeries 1514764800)) None None (Some dailyPrices) None 0 0
    = Failure 502 error.
Proof.
  apply (proj2 (GET_gate (Some (twoDaySeries 1514764800)) None None
                  (Some dailyPrices) None 0 0)).
  left. simpl. lia.
Defined.

(** C3: with a realized price of 1 the record has [rp = 1 > 0] and
    [rp_0_8 = rp = rp_1_25 = 1]. *)
Lemma band_monotonicity_counterexample :
  exists body r,
    GET (Some (oneDaySeries 1)) None None (Some dailyPrices) None 0 0
    = Success body
    /\ r ∈ data body /\ 0 < rp r /\ rp_0_8 r = rp r /\ rp r = rp_1_25 r
    /\ ~ bandChain r.
Proof.
  eexists _, _. split; [by vm_compute |]. split; [by left |].
  split; [by vm_compute |]. split; [by vm_compute |]. split; [by vm_compute |].
  vm_compute. intros (H & _). discriminate.
Qed.

Lemma band_monotonicity_witness :
  exists body r,
    GET (Some (oneDaySeries 20000)) None None (Some dailyPrices) None 0 0
    = Success body
    /\ head (data body) = Some r /\ 5 <= rp r /\ bandChain r.
Proof.
  eexists _, _. split; [by vm_compute |]. split; [reflexivity |].
  split; [by vm_compute |].
  eapply (band_monotonicity (Some (oneDaySeries 20000)) None None
            (Some dailyPrices) None 0 0).
  - by vm_compute.
  - by left.
  - by vm_compute.
Defined.



(** C5: a live price of exactly 0 is available and yet, thirteen hours
    after the last record, nothing is appended. *)
Lemma liveTick_replace_or_append_counterexample :
  exists body lastRecord,
    GET (Some (oneDaySeries 1)) None None (Some dailyPrices) (Some 0%Q)
      (1523318400000 + 13 * 60 * 60 * 1000) 0
    = Success body
    /\ last (chartDataOf (oneDaySeries 1) None None dailyPrices)
       = Some lastRecord
    /\ 12 * 60 * 60 * 1000
       < 1523318400000 + 13 * 60 * 60 * 1000 - date lastRecord
    /\ data body = chartDataOf (oneDaySeries 1) None None dailyPrices
    /\ length (data body)
       <> S (length (chartDataOf (oneDaySeries 1) None None dailyPrices)).
Proof.
  eexists _, _. split; [by vm_compute |]. split; [by vm_compute |].
  split; [by vm_compute |]. split; by vm_compute.
Qed.

Lemma liveTick_replace_or_append_witness :
  ~ (50000.4 == 0)%Q
  /\ liveTick ∅ [] None None None None 22000 None None (Some 50000.4%Q)
       (1515628800000 + 46800000) [dayTenRecord]
     = [dayTenRecord;
        livePoint ∅ [] None None None None 22000 None None 50000.4%Q
          (1515628800000 + 46800000)]
  /\ liveTick ∅ [] None None None None 22000 None None (Some 50000.4%Q)
       (1515628800000 + 3600000) [dayTenRecord]
     = [livePoint ∅ [] None None None None 22000 None None 50000.4%Q
          (1515628800000 + 3600000)]
  /\ liveTick ∅ [] None None None None 22000 None None (Some (0 # 7))
       (1515628800000 + 46800000) [dayTenRecord]
     = [dayTenRecord].
Proof.
  assert (Hp : ~ (50000.4 == 0)%Q) by discriminate.
  split; [exact Hp |].
  destruct (liveTick_replace_or_append ∅ [] None None None None 22000 None
              None [dayTenRecord] dayTenRecord eq_refl)
    as (_ & Hzero & Htick).
  split; [| split].
  - destruct (Htick 50000.4%Q (1515628800000 + 46800000) Hp)
      as (_ & _ & Happend & _).
    apply Happend. reflexivity.
  - destruct (Htick 50000.4%Q (1515628800000 + 3600000) Hp)
      as (_ & _ & _ & Hreplace).
    apply Hreplace. discriminate.
  - apply Hzero. reflexivity.
Defined.

(** C7: the example as the specification gives it is refused by the gate. *)
Lemma end_to_end_example_counterexample :
  GET (Some (twoDaySeries 1514764800)) None None
    (Some (twoDayPrices 1514764800)) None 0 0
  = Failure 502 "Failed to fetch on-chain realized price data"
  /\ ~ exists body,
        GET (Some (twoDaySeries 1514764800)) None None
          (Some (twoDayPrices 1514764800)) None 0 0 = Success body.
Proof. split; [reflexivity |]. by intros [body Hbody]. Qed.

Lemma end_to_end_example_witness :
  startDate <= 1514764800
  /\ validTime ((1514764800 + 864000) * 1000)
  /\ rp_1_25 <$> chartDataOf (twoDaySeries 1514764800) None None
                   (twoDayPrices 1514764800)
     = [25000; 27500].
Proof.
  assert (H0 : startDate <= 1514764800) by (by vm_compute).
  assert (Hvalid : validTime ((1514764800 + 864000) * 1000))
    by (split; by vm_compute).
  split; [done |]. split; [done |].
  destruct (end_to_end_example 1514764800 0 0 H0 Hvalid) as [_ ->].
  reflexivity.
Defined.

(** C8 on a passing call, with and without a live price. *)
Lemma latestPrice_precedence_witness :
  (exists body,
      GET (Some (oneDaySeries 1)) None None (Some dailyPrices)
        (Some 123.5%Q) 0 0 = Success body
      /\ latestPrice body = 124)
  /\ (exists body,
        GET (Some (oneDaySeries 1)) None None (Some dailyPrices) None 0 0
        = Success body
        /\ latestPrice body = 7).
Proof.
  assert (Hrp : 100 <= Z.of_nat (length (oneDaySeries 1))) by (by vm_compute).
  assert (Hhist : 100 <= Z.of_nat (length dailyPrices)) by (by vm_compute).
  assert (Hlast : last (oneDaySeries 1) = Some (1514764800000, 1%Q))
    by reflexivity.
  assert (Hvalid : validTime (1514764800000, 1%Q).1)
    by (split; by vm_compute).
  split.
  - destruct (latestPrice_precedence (oneDaySeries 1) None None dailyPrices
                (Some 123.5%Q) 0 0 _ Hrp Hhist Hlast Hvalid)
      as (body & Hget & Hlive & _).
    exists body. split; [done |]. by rewrite (Hlive 123.5%Q).
  - destruct (latestPrice_precedence (oneDaySeries 1) None None dailyPrices
                None 0 0 _ Hrp Hhist Hlast Hvalid)
      as (body & Hget & _ & Hhistorical & _).
    exists body. split; [done |].
    by rewrite (Hhistorical {| Price.x := 1514764800 + 86400 * 99;
                               Price.y := 7 |}).
Defined.

(** C9 on a cohort series whose only reading is 0. *)
Lemma cohort_zero_is_null_witness :
  lookupRP zeroCohort (sortedKeysOf zeroCohort) 1514764800000 = Some 0%Q
  /\ sth_rp (chartPoint ∅ [] (Some zeroCohort) (Some (sortedKeysOf zeroCohort))
               None None {| Price.x := 1514764800; Price.y := 7 |}) = None
  /\ sth_rp (chartPoint ∅ [] None None None None
               {| Price.x := 1514764800; Price.y := 7 |}) = None.
Proof.
  assert (Hlookup : lookupRP zeroCohort (sortedKeysOf zeroCohort)
                      1514764800000 = Some 0%Q) by (by vm_compute).
  split; [done |].
  destruct (cohort_zero_is_null zeroCohort (sortedKeysOf zeroCohort) 0%Q
              1514764800000 ∅ [] None None Hlookup (Qeq_refl 0))
    as (Hmerge & _ & _).
  destruct (Hmerge {| Price.x := 1514764800; Price.y := 7 |} eq_refl)
    as (H1 & H2 & _).
  by split.
Defined.

(** C10: [2 ^ 31] keys, all 0, an empty map and the timestamp 0; the second
    midpoint is read at the index -536870913. *)
Lemma lookupRP_total_in_bounds_counterexample :
  lookupRP_run (S (length hugeKeys)) ∅ hugeKeys 0
  = Some (None, [1073741823; -536870913; 1073741823])
  /\ ~ inBounds hugeKeys (-536870913)
  /\ ~ Forall (inBounds hugeKeys) [1073741823; -536870913; 1073741823].
Proof.
  split; [| split].
  - apply lookupRP_run_wraps. apply Z2Nat.id. lia.
  - intros [Hneg _]. lia.
  - intros Hall. apply Forall_cons in Hall as [_ Hall].
    apply Forall_cons in Hall as [[Hneg _] _]. lia.
Qed.

Lemma lookupRP_total_in_bounds_witness :
  Z.of_nat (length [0; 3 * msPerDay; 10 * msPerDay]) <= 2 ^ 30
  /\ exists r reads,
      lookupRP_run 4 ∅ [0; 3 * msPerDay; 10 * msPerDay] (5 * msPerDay)
      = Some (r, reads)
      /\ Forall (inBounds [0; 3 * msPerDay; 10 * msPerDay]) reads.
Proof.
  assert (Hsize : Z.of_nat (length [0; 3 * msPerDay; 10 * msPerDay])
                  <= 2 ^ 30) by (by vm_compute).
  split; [done |].
  destruct (lookupRP_total_in_bounds ∅ [0; 3 * msPerDay; 10 * msPerDay]
              (5 * msPerDay) Hsize)
    as [(r & reads & Hrun & _ & Hreads & _) _].
  by exists r, reads.
Defined.

(** * Further properties of the route *)

(** ** [buildDayMap] *)

Lemma buildDayMap_app (l1 l2 : list (Z * Q)) :
  buildDayMap (l1 ++ l2)
  = foldl (fun map '(ts, val) => <[utcMidnight ts := val]> map)
      (buildDayMap l1) l2.
Proof. unfold buildDayMap. by rewrite foldl_app. Qed.

Lemma foldl_insert_other (l : list (Z * Q)) (d : Z) :
  Forall (fun p => utcMidnight p.1 <> d) l ->
  forall m : gmap Z Q,
    foldl (fun map '(ts, val) => <[utcMidnight ts := val]> map) m l !! d
    = m !! d.
Proof.
  induction 1 as [| [ts val] l Hne _ IH]; intros m; simpl; [done |].
  rewrite IH. by apply lookup_insert_ne.
Qed.

Lemma buildDayMap_lookup_last (l1 l2 : list (Z * Q)) (ts : Z) (val : Q) :
  Forall (fun p => utcMidnight p.1 <> utcMidnight ts) l2 ->
  buildDayMap (l1 ++ (ts, val) :: l2) !! utcMidnight ts = Some val.
Proof.
  intros Hlater. rewrite buildDayMap_app. simpl.
  rewrite foldl_insert_other by done. apply lookup_insert_eq.
Qed.

Lemma buildDayMap_value (raw : list (Z * Q)) (d : Z) (val : Q) :
  buildDayMap raw !! d = Some val ->
  exists ts, (ts, val) ∈ raw /\ utcMidnight ts = d.
Proof.
  induction raw as [| [ts v] raw IH] using rev_ind; [done |].
  rewrite buildDayMap_snoc.
  destruct (decide (utcMidnight ts = d)) as [<- | Hne].
  - rewrite lookup_insert_eq. intros [= ->]. exists ts.
    split; [| done]. apply elem_of_app. right. by left.
  - rewrite lookup_insert_ne by done. intros (ts' & Hin & Hd)%IH.
    exists ts'. split; [| done]. apply elem_of_app. by left.
Qed.

Lemma buildDayMap_size (raw : list (Z * Q)) :
  (size (buildDayMap raw) <= length raw)%nat.
Proof.
  induction raw as [| [ts v] raw IH] using rev_ind; [done |].
  rewrite buildDayMap_snoc, length_app. simpl.
  destruct (buildDayMap raw !! utcMidnight ts) as [old |] eqn:Hold.
  - rewrite map_size_insert_Some by done. lia.
  - rewrite map_size_insert_None by done. lia.
Qed.

Lemma utcMidnight_same_day (ts t : Z) :
  utcMidnight t = utcMidnight ts
  <-> utcMidnight ts <= t < utcMidnight ts + msPerDay.
Proof. unfold utcMidnight, msPerDay. lia_mod. Qed.


(** X2.  For a series of valid time values, the keys of the day map are
    exactly the UTC days of the raw points, each of them a midnight and a
    valid time value itself; every value stored is the value of a raw point
    of that day; and the map has at most as many entries as the series has
    points. *)
Theorem buildDayMap_keys (raw : list (Z * Q)) :
  Forall (fun p => validTime p.1) raw ->
  (forall d, is_Some (buildDayMap raw !! d) <-> d ∈ daysOf raw)
  /\ (forall d, d ∈ daysOf raw -> d mod msPerDay = 0 /\ validTime d)
  /\ (forall d val,
        buildDayMap raw !! d = Some val ->
        exists ts, (ts, val) ∈ raw /\ utcMidnight ts = d)
  /\ (size (buildDayMap raw) <= length raw)%nat.
Proof.
  intros Hvalid. split; [apply buildDayMap_days |]. split; [| split].
  - intros d (p & -> & Hp)%list_elem_of_fmap. split.
    + unfold utcMidnight, msPerDay. lia_mod.
    + apply utcMidnight_valid. rewrite Forall_forall in Hvalid. auto.
  - apply buildDayMap_value.
  - apply buildDayMap_size.
Qed.

(** ** The sorted keys *)

Lemma sortedKeysOf_strict (m : gmap Z Q) :
  StronglySorted Z.lt (sortedKeysOf m).
Proof.
  pose proof (sortedKeysOf_sorted m) as Hsorted.
  pose proof (sortedKeysOf_NoDup m) as Hnd.
  induction Hsorted as [| k l Hl IH Hk]; [constructor |].
  apply NoDup_cons in Hnd as [Hnotin Hnd]. constructor; [by apply IH |].
  rewrite Forall_forall in *. intros k' Hin.
  assert (k <= k') by auto.
  assert (k <> k') by (by intros ->).
  lia.
Qed.

(** X3.  The key array of the day map of a series of valid time values is
    strictly ascending, holds exactly the keys of the map, which are the UTC
    days of the series, all of them valid midnights, and has one element per
    entry of the map, at most 200,000,001. *)
Theorem sortedKeysOf_spec (raw : list (Z * Q)) :
  Forall (fun p => validTime p.1) raw ->
  let rpMap := buildDayMap raw in
  let rpKeys := sortedKeysOf rpMap in
  StronglySorted Z.lt rpKeys
  /\ (forall k, k ∈ rpKeys <-> is_Some (rpMap !! k))
  /\ (forall k, k ∈ rpKeys <-> k ∈ daysOf raw)
  /\ Forall (fun k => validTime k /\ utcMidnight k = k) rpKeys
  /\ length rpKeys = size rpMap
  /\ Z.of_nat (length rpKeys) <= 200000001.
Proof.
  intros Hvalid rpMap rpKeys.
  split; [apply sortedKeysOf_strict |]. split; [apply elem_of_sortedKeysOf |].
  split; [| split; [| split]].
  - intros k. unfold rpKeys, rpMap.
    by rewrite elem_of_sortedKeysOf, buildDayMap_days.
  - rewrite Forall_forall. intros k Hk.
    apply elem_of_sortedKeysOf, buildDayMap_days in Hk.
    apply list_elem_of_fmap in Hk as (p & -> & Hp).
    rewrite Forall_forall in Hvalid.
    split; [apply utcMidnight_valid; auto | apply utcMidnight_idem].
  - unfold rpKeys, sortedKeysOf.
    by rewrite merge_sort_Permutation, length_fmap, length_map_to_list.
  - by apply sortedKeysOf_buildDayMap_size.
Qed.

(** ** [lookupRP] in general *)

(** Whatever the array holds and however long the loop runs, [best] only
    ever moves to an index whose key is at most [dayTs]. *)
Lemma bsearch_best_key (sortedKeys : list Z) (dayTs : Z) (fuel : nat) :
  forall (lo hi : Z) (st st' : search),
    bsearch fuel sortedKeys dayTs lo hi st = Some st' ->
    best st' = best st
    \/ exists k, at_index sortedKeys (best st') = Some k /\ k <= dayTs.
Proof.
  induction fuel as [| fuel IH]; intros lo hi st st'; simpl.
  - destruct (lo <=? hi); [done |]. intros [= <-]. by left.
  - destruct (lo <=? hi); [| intros [= <-]; by left].
    destruct (at_index sortedKeys (sar (lo + hi) 1)) as [k |] eqn:Hk.
    + destruct (Z.leb_spec k dayTs) as [Hle | Hgt].
      * intros [Hsame | Hkey]%IH; [| by right].
        right. simpl in Hsame. rewrite Hsame. by exists k.
      * intros Hrun%IH. done.
    + intros Hrun%IH. done.
Qed.

(** X4.  No look-ahead: for every map, every key array (sorted or not, of
    any size) and every timestamp, a value returned by [lookupRP] is the
    value the map stores under a key that is not after the UTC day of the
    timestamp: the day itself, or an element of the key array. *)
Theorem lookupRP_no_lookahead (dayMap : gmap Z Q) (sortedKeys : list Z)
    (timestampMs : Z) (v : Q) :
  lookupRP dayMap sortedKeys timestampMs = Some v ->
  exists k,
    k <= utcMidnight timestampMs /\ dayMap !! k = Some v
    /\ (k = utcMidnight timestampMs \/ k ∈ sortedKeys).
Proof.
  unfold lookupRP, lookupRP_run.
  destruct (dayMap !! utcMidnight timestampMs) as [exact |] eqn:Hexact.
  { intros [= ->]. exists (utcMidnight timestampMs).
    split; [lia |]. split; [done | by left]. }
  destruct (bsearch _ _ _ _ _ _) as [st |] eqn:Hrun; [| done].
  destruct (0 <=? best st) eqn:Hfound; [| done].
  apply bsearch_best_key in Hrun as [Hsame | (k & Hk & Hle)].
  { simpl in Hsame. rewrite Hsame in Hfound. done. }
  rewrite Hk. simpl. intros Hv. exists k. split; [done |]. split; [done |].
  right. apply at_index_Some in Hk as [_ Hk].
  by eapply list_elem_of_lookup_2.
Qed.

(** X5.  Round trip through the day map of a series of valid time values:
    a point that no later point of the same UTC day follows is what
    [lookupRP] returns for every valid timestamp of that day, intraday ones
    included, whatever key array it is given. *)
Theorem lookupRP_same_day (l1 l2 : list (Z * Q)) (ts : Z) (val : Q)
    (sortedKeys : list Z) (t : Z) :
  Forall (fun p => validTime p.1) (l1 ++ (ts, val) :: l2) ->
  validTime t ->
  Forall (fun p => utcMidnight p.1 <> utcMidnight ts) l2 ->
  utcMidnight ts <= t < utcMidnight ts + msPerDay ->
  lookupRP (buildDayMap (l1 ++ (ts, val) :: l2)) sortedKeys t = Some val.
Proof.
  intros _ _ Hlater Hday%utcMidnight_same_day.
  apply lookupRP_exact. rewrite Hday. by apply buildDayMap_lookup_last.
Qed.

(** Every turn of the loop halves the interval that is left. *)
Lemma bsearch_reads_log (sortedKeys : list Z) (dayTs : Z) (fuel : nat) :
  Z.of_nat (length sortedKeys) <= 2 ^ 30 ->
  forall (k : nat) (lo hi : Z) (st st' : search),
    0 <= lo -> hi < Z.of_nat (length sortedKeys) ->
    hi - lo + 1 < 2 ^ Z.of_nat k ->
    bsearch fuel sortedKeys dayTs lo hi st = Some st' ->
    (length (reads st') <= length (reads st) + k)%nat.
Proof.
  intros Hsize.
  induction fuel as [| fuel IH]; intros k lo hi st st' Hlo Hhi Hk; simpl.
  - destruct (lo <=? hi); [done |]. intros [= <-]. lia.
  - destruct (Z.leb_spec lo hi) as [Hle | Hgt]; [| intros [= <-]; lia].
    destruct k as [| k]; [simpl in Hk; lia |].
    rewrite Nat2Z.inj_succ, Z.pow_succ_r in Hk by lia.
    destruct (sar_midpoint lo hi) as [Hdiv Hmid]; [lia .. |].
    assert (Hhalf : 2 * sar (lo + hi) 1 <= lo + hi < 2 * sar (lo + hi) 1 + 2)
      by (rewrite Hdiv; lia_mod).
    set (mid := sar (lo + hi) 1) in *.
    assert (Hstep : forall lo' hi' best',
               0 <= lo' -> hi' < Z.of_nat (length sortedKeys) ->
               hi' - lo' + 1 < 2 ^ Z.of_nat k ->
               bsearch fuel sortedKeys dayTs lo' hi'
                 {| best := best'; reads := reads st ++ [mid] |} = Some st' ->
               (length (reads st') <= length (reads st) + S k)%nat).
    { intros lo' hi' best' Hlo' Hhi' Hk' Hrun.
      apply (IH k) in Hrun; [| done ..]. simpl in Hrun.
      rewrite length_app in Hrun. simpl in Hrun. lia. }
    destruct (at_index sortedKeys mid) as [key |].
    + destruct (key <=? dayTs); apply Hstep; lia.
    + apply Hstep; lia.
Qed.

(** X6.  Logarithmic cost: on a key array of fewer than [2 ^ k] elements (and
    at most [2 ^ 30]) a lookup ends after reading the array at most [k + 1]
    times: [k] midpoints and the key that was found. *)
Theorem lookupRP_reads_logarithmic (dayMap : gmap Z Q) (sortedKeys : list Z)
    (timestampMs : Z) (k : nat) :
  Z.of_nat (length sortedKeys) <= 2 ^ 30 ->
  Z.of_nat (length sortedKeys) < 2 ^ Z.of_nat k ->
  exists r reads,
    lookupRP_run (S (length sortedKeys)) dayMap sortedKeys timestampMs
    = Some (r, reads)
    /\ (length reads <= k + 1)%nat.
Proof.
  intros Hsize Hk.
  destruct (bsearch_safe sortedKeys (utcMidnight timestampMs) Hsize
              (S (length sortedKeys)) 0 (Z.of_nat (length sortedKeys) - 1)
              {| best := -1; reads := [] |})
    as (st & Hrun & _); [lia .. |].
  assert (Hlen : (length (reads st) <= 0 + k)%nat).
  { apply (bsearch_reads_log sortedKeys (utcMidnight timestampMs)
             (S (length sortedKeys)) Hsize k 0
             (Z.of_nat (length sortedKeys) - 1) {| best := -1; reads := [] |});
      [lia | lia | lia | done]. }
  unfold lookupRP_run.
  destruct (dayMap !! utcMidnight timestampMs) as [exact |].
  { eexists _, _. split; [done |]. simpl. lia. }
  rewrite Hrun. destruct (0 <=? best st).
  - eexists _, _. split; [done |]. rewrite length_app. simpl. lia.
  - eexists _, _. split; [done |]. lia.
Qed.

(** ** Resampling, for any filtered sequence *)

Lemma filter_index_sublist {A} (f : nat -> bool) (a : list A) :
  forall i, filter_index f i a `sublist_of` a.
Proof.
  induction a as [| d a IH]; intros i; simpl; [done |].
  destruct (f i); [by apply sublist_skip | by apply sublist_cons].
Qed.

Lemma filter_index_app {A} (f : nat -> bool) (a b : list A) :
  forall i,
    filter_index f i (a ++ b)
    = filter_index f i a ++ filter_index f (i + length a) b.
Proof.
  induction a as [| d a IH]; intros i; simpl.
  - by rewrite Nat.add_0_r.
  - rewrite IH. replace (S i + length a)%nat with (i + S (length a))%nat by lia.
    by destruct (f i).
Qed.

Lemma sampledOf_sublist_of (filtered : list Price.point) :
  sampledOf filtered `sublist_of` filtered.
Proof.
  unfold sampledOf.
  destruct (last (everyFourth filtered)) as [s |] eqn:Hs;
    [| apply filter_index_sublist].
  destruct (last filtered) as [h |] eqn:Hh; [| apply filter_index_sublist].
  destruct (Z.eqb_spec (Price.x s) (Price.x h)) as [Hx | Hx]; simpl;
    [apply filter_index_sublist |].
  revert Hs Hh. induction filtered as [| h' front _] using rev_ind; [done |].
  rewrite last_snoc. intros Hs [= ->].
  unfold everyFourth in *. rewrite filter_index_app in *. simpl in *.
  destruct (Z.of_nat (length front) mod 4 =? 0).
  - rewrite last_snoc in Hs. by simplify_eq.
  - rewrite app_nil_r. apply sublist_app; [| done].
    apply filter_index_sublist.
Qed.

Lemma sampledOf_length (filtered : list Price.point) :
  (4 * length (sampledOf filtered) < length filtered + 8)%nat.
Proof.
  pose proof (everyFourth_length filtered) as [Hlen _].
  unfold sampledOf.
  destruct (last (everyFourth filtered)) as [s |]; [| lia].
  destruct (last filtered) as [h |]; [| lia].
  destruct (negb _); [| lia].
  rewrite length_app. simpl. lia.
Qed.

Lemma sampledOf_head (filtered : list Price.point) :
  head (sampledOf filtered) = head filtered.
Proof.
  destruct filtered as [| d rest]; [done |].
  unfold sampledOf, everyFourth. simpl.
  destruct (last (d :: _)) as [s |]; [| done].
  destruct (last (d :: rest)) as [h |]; [| done].
  by destruct (negb _).
Qed.

(** X7.  Resampling never invents, repeats or reorders a point: for every
    filtered sequence the resampled one is a subsequence of it that starts
    with the same point, is empty only when the filtered sequence is, and
    has at most a quarter of its points (rounded up) plus one. *)
Theorem sampledOf_subsequence (filtered : list Price.point) :
  sampledOf filtered `sublist_of` filtered
  /\ head (sampledOf filtered) = head filtered
  /\ (sampledOf filtered = [] <-> filtered = [])
  /\ (4 * length (sampledOf filtered) < length filtered + 8)%nat.
Proof.
  split; [apply sampledOf_sublist_of |]. split; [apply sampledOf_head |].
  split; [| apply sampledOf_length].
  pose proof (sampledOf_head filtered) as Hhead.
  destruct filtered as [| d rest]; [done |].
  destruct (sampledOf (d :: rest)); done.
Qed.

(** ** The merged sequence *)

Lemma chartDataOf_elem rpRaw sthRPRaw lthRPRaw hist r :
  r ∈ chartDataOf rpRaw sthRPRaw lthRPRaw hist ->
  exists d,
    d ∈ filteredOf hist
    /\ r = chartPoint (buildDayMap rpRaw) (sortedKeysOf (buildDayMap rpRaw))
             (cohortMap sthRPRaw) (cohortKeys (cohortMap sthRPRaw))
             (cohortMap lthRPRaw) (cohortKeys (cohortMap lthRPRaw)) d.
Proof.
  unfold chartDataOf. intros (d & -> & Hd)%list_elem_of_fmap.
  exists d. split; [| done].
  eapply elem_of_sublist; [done | apply sampledOf_sublist_of].
Qed.



Lemma sorted_sublist {A} (R : relation A) (l1 l2 : list A) :
  l1 `sublist_of` l2 -> StronglySorted R l2 -> StronglySorted R l1.
Proof.
  induction 1 as [| a l1 l2 Hsub IH | a l1 l2 Hsub IH]; intros Hsorted;
    [done | |]; apply StronglySorted_inv in Hsorted as [Hl2 Ha].
  - constructor; [by apply IH |].
    rewrite Forall_forall in *. intros b Hb. apply Ha.
    by eapply elem_of_sublist.
  - by apply IH.
Qed.


Lemma filteredOf_sublist (hist : list Price.point) :
  filteredOf hist `sublist_of` hist.
Proof.
  unfold filteredOf. induction hist as [| d l IH]; simpl; [done |].
  destruct (keepPoint d); by constructor.
Qed.





(** ** Cohort series *)

Lemma cohortKeys_present (raw : option (list (Z * Q))) :
  is_Some (cohortKeys (cohortMap raw))
  <-> exists r, raw = Some r /\ r <> [].
Proof.
  split.
  - destruct raw as [r |]; [| by intros [? ?]].
    destruct r as [| e r]; [by intros [? ?] |]. intros _. by exists (e :: r).
  - intros (r & -> & Hne).
    destruct (cohortKeys (cohortMap (Some r))) as [k |] eqn:Hk; [done |].
    apply cohort_absent_latest in Hk. simpl in Hk.
    destruct (last r) eqn:Hlast; [done |]. by apply last_None in Hlast.
Qed.

(** X10.  The map and the keys of a cohort series are present together:
    both exist exactly when the fetched series is a non-empty array, and then
    its latest value exists too; the test [m.size > 0] never fails on a map
    that was built. *)
Theorem cohort_present_together (raw : option (list (Z * Q))) :
  (is_Some (cohortKeys (cohortMap raw)) <-> is_Some (cohortMap raw))
  /\ (is_Some (cohortMap raw) <-> exists r, raw = Some r /\ r <> [])
  /\ (is_Some (cohortMap raw) <-> is_Some (latestOf raw)).
Proof.
  assert (Hmap : is_Some (cohortMap raw) <-> exists r, raw = Some r /\ r <> []).
  { split.
    - destruct raw as [r |]; [| by intros [? ?]].
      destruct r as [| e r]; [by intros [? ?] |]. intros _. by exists (e :: r).
    - intros (r & -> & Hne). destruct r as [| e r]; [done |]. by eexists. }
  split; [by rewrite cohortKeys_present, Hmap |]. split; [done |].
  rewrite Hmap. split.
  - intros (r & -> & Hne). simpl.
    destruct (last r) eqn:Hlast; [by eexists |]. by apply last_None in Hlast.
  - destruct raw as [r |]; [| by intros [? ?]]. simpl.
    destruct r as [| e r]; [by intros [? ?] |]. intros _. by exists (e :: r).
Qed.

Lemma existsb_false_Forall {A} (f : A -> bool) (l : list A) :
  Forall (fun a => f a = false) l -> existsb f l = false.
Proof. induction 1 as [| a l Ha _ IH]; simpl; [done |]. by rewrite Ha, IH. Qed.

(** X11.  Absence stays absence: when the short-term series is absent or
    empty, no record of a successful response carries [sth_rp], the live
    candidate included, [latestSTH] is null and the chart's [hasSTH] is
    false; and likewise for the long-term series. *)
Theorem GET_cohort_absent realizedPriceRaw sthRPRaw lthRPRaw historicalPrices
    livePrice now clock body :
  GET realizedPriceRaw sthRPRaw lthRPRaw historicalPrices livePrice now clock
  = Success body ->
  (cohortMap sthRPRaw = None ->
   Forall (fun r => sth_rp r = None) (data body)
   /\ latestSTH body = None /\ hasSTH (data body) = false)
  /\ (cohortMap lthRPRaw = None ->
      Forall (fun r => lth_rp r = None) (data body)
      /\ latestLTH body = None /\ hasLTH (data body) = false).
Proof.
  intros Hget.
  assert (Hlatest : forall raw, cohortMap raw = None -> latestOf raw = None).
  { intros raw Hraw. apply cohort_absent_latest. by rewrite Hraw. }
  pose proof Hget as Hinv. apply GET_Success_inv in Hinv
    as (rpRaw & hist & e & -> & -> & _ & _ & Hlast & Hvalid & Hdata & _).
  assert (Hsth_latest : latestSTH body = latestOf sthRPRaw
                        /\ latestLTH body = latestOf lthRPRaw).
  { unfold GET in Hget.
    destruct (Z.of_nat (length rpRaw) <? 100); [done |].
    destruct (Z.of_nat (length hist) <? 100); [done |].
    rewrite Hlast in Hget.
    destruct (negb (validTimeb e.1)); [done |].
    by injection Hget as <-. }
  destruct Hsth_latest as [HlatestSTH HlatestLTH].
  split; intros Habsent; pose proof (Hlatest _ Habsent) as Hnolatest.
  - assert (Hall : Forall (fun r => sth_rp r = None) (data body)).
    { rewrite Forall_forall, Hdata. intros r [Hr | [p ->]]%liveTick_elem.
      - apply chartDataOf_elem in Hr as (d & _ & ->).
        by rewrite Habsent.
      - by rewrite Habsent, Hnolatest. }
    split; [done |]. split; [congruence |].
    unfold hasSTH. apply existsb_false_Forall.
    eapply Forall_impl; [done |]. by intros r ->.
  - assert (Hall : Forall (fun r => lth_rp r = None) (data body)).
    { rewrite Forall_forall, Hdata. intros r [Hr | [p ->]]%liveTick_elem.
      - apply chartDataOf_elem in Hr as (d & _ & ->).
        by rewrite Habsent.
      - by rewrite Habsent, Hnolatest. }
    split; [done |]. split; [congruence |].
    unfold hasLTH. apply existsb_false_Forall.
    eapply Forall_impl; [done |]. by intros r ->.
Qed.

(** ** A point without a valuation reading *)

Lemma Math_round_zero_times (c : Q) : Math_round (0 * c) = 0.
Proof.
  pose proof (Math_round_bounds (0 * c)) as [Hlow Hup].
  assert (H1 : (inject_Z (Math_round (0 * c)) < inject_Z 1)%Q)
    by (change (inject_Z 1) with 1%Q; lra).
  assert (H2 : (inject_Z (-1) < inject_Z (Math_round (0 * c)))%Q)
    by (change (inject_Z (-1)) with (-1 # 1); lra).
  rewrite <- Zlt_Qlt in H1, H2. lia.
Qed.

(** X12.  A price point that predates the whole valuation series (every day
    of the series is after the point's UTC day) gets no reading: the merge
    step then writes [rp = 0] and all five bands 0, while the live candidate
    falls back to the latest valuation value. *)
Theorem no_reading_fallback (raw : list (Z * Q)) (ts : Z)
    sthMap sthKeys lthMap lthKeys :
  Forall (fun p => validTime p.1) raw ->
  Forall (fun d => utcMidnight ts < d) (daysOf raw) ->
  let rpMap := buildDayMap raw in
  let rpKeys := sortedKeysOf rpMap in
  (forall d, Price.x d * 1000 = ts ->
     let r := chartPoint rpMap rpKeys sthMap sthKeys lthMap lthKeys d in
     rp r = 0 /\ rp_0_8 r = 0 /\ rp_1_25 r = 0 /\ rp_1_7 r = 0
     /\ rp_2_4 r = 0 /\ rp_3_2 r = 0)
  /\ (forall latestRP latestSTH latestLTH livePrice,
        let r := livePoint rpMap rpKeys sthMap sthKeys lthMap lthKeys
                   latestRP latestSTH latestLTH livePrice ts in
        rp r = latestRP /\ bandsOf (inject_Z latestRP) r).
Proof.
  intros Hvalid Hbefore rpMap rpKeys.
  assert (Hnone : lookupRP rpMap rpKeys ts = None).
  { destruct (lookupRP_greatest rpMap rpKeys ts) as [_ Hnull].
    - pose proof (sortedKeysOf_buildDayMap_size raw Hvalid) as Hcount.
      fold rpMap rpKeys in Hcount. lia.
    - apply sortedKeysOf_sorted.
    - apply elem_of_sortedKeysOf.
    - destruct Hnull as [reads Hrun].
      + intros d Hd%buildDayMap_days. rewrite Forall_forall in Hbefore. auto.
      + by apply (lookupRP_of_run _ _ _ _ reads). }
  split.
  - intros d <-. unfold chartPoint. simpl. rewrite Hnone. simpl.
    change (Math_round 0) with 0. by rewrite !Math_round_zero_times.
  - intros latestRP latestSTH latestLTH livePrice. unfold livePoint. simpl.
    rewrite Hnone. simpl. split; [apply Math_round_inject_Z |].
    by repeat split.
Qed.

(** ** Outcomes of the handler *)

(** X13.  The three outcomes of the handler: it succeeds exactly when both
    mandatory series have at least 100 points and the last valuation point
    carries a valid date; it answers the internal fault, status 500, exactly
    when the gate is passed and that date is invalid; otherwise it answers
    the insufficient-data failure, status 502. *)
Theorem GET_outcomes realizedPriceRaw sthRPRaw lthRPRaw historicalPrices
    livePrice now clock :
  let passes (valid : Z -> Prop) :=
    exists rpRaw hist latestRPEntry,
      realizedPriceRaw = Some rpRaw /\ historicalPrices = Some hist
      /\ 100 <= Z.of_nat (length rpRaw) /\ 100 <= Z.of_nat (length hist)
      /\ last rpRaw = Some latestRPEntry /\ valid latestRPEntry.1 in
  let answer :=
    GET realizedPriceRaw sthRPRaw lthRPRaw historicalPrices livePrice
      now clock in
  ((exists body, answer = Success body) <-> passes validTime)
  /\ ((exists error, answer = Failure 500 error)
      <-> passes (fun t => ~ validTime t))
  /\ ((exists body, answer = Success body)
      \/ answer = Failure 500 "Internal server error fetching BTC data"
      \/ answer = Failure 502 "Failed to fetch on-chain realized price data"
      \/ answer = Failure 502 "Failed to fetch historical BTC price data").
Proof.
  intros passes answer. unfold passes, answer, GET.
  destruct realizedPriceRaw as [rpRaw |].
  2: { split; [| split; [| by right; right; left]];
       split; try (by intros [? ?]); by intros (? & ? & ? & ? & _). }
  destruct (Z.ltb_spec (Z.of_nat (length rpRaw)) 100).
  { split; [| split; [| by right; right; left]];
      (split; [by intros [? ?] |]);
      intros (? & ? & ? & [= <-] & _ & ? & _); lia. }
  destruct historicalPrices as [hist |].
  2: { split; [| split; [| by right; right; right]];
       split; try (by intros [? ?]); by intros (? & ? & ? & _ & ? & _). }
  destruct (Z.ltb_spec (Z.of_nat (length hist)) 100).
  { split; [| split; [| by right; right; right]];
      (split; [by intros [? ?] |]);
      intros (? & ? & ? & _ & [= <-] & _ & ? & _); lia. }
  destruct (last rpRaw) as [e |] eqn:Hlast.
  2: { apply last_None in Hlast. subst rpRaw. simpl in *. lia. }
  destruct (validTimeb e.1) eqn:Hvalid; simpl.
  - apply validTimeb_spec in Hvalid.
    split; [| split; [| left; by eexists]].
    + split; [| by eexists]. intros _. by exists rpRaw, hist, e.
    + split; [by intros [? ?] |].
      intros (r' & h' & e' & [= <-] & _ & _ & _ & Hl & Hinvalid).
      rewrite Hlast in Hl. by injection Hl as <-.
  - assert (Hinvalid : ~ validTime e.1).
    { rewrite <- validTimeb_spec, Hvalid. done. }
    split; [| split; [| by right; left]].
    + split; [by intros [? ?] |].
      intros (r' & h' & e' & [= <-] & _ & _ & _ & Hl & Hok).
      rewrite Hlast in Hl. by injection Hl as <-.
    + split; [| by eexists]. intros _. by exists rpRaw, hist, e.
Qed.

(** X14.  Size of the response: a successful response over [n] historical
    points carries at most a quarter of them (rounded up) plus two records,
    the forced last point and the live tick, and [dataPoints] is their
    number; the live tick adds at most one record to the merge step's. *)
Theorem GET_record_count rpRaw sthRPRaw lthRPRaw hist livePrice now clock body :
  GET (Some rpRaw) sthRPRaw lthRPRaw (Some hist) livePrice now clock
  = Success body ->
  (4 * length (data body) < length hist + 12)%nat
  /\ dataPoints body = Z.of_nat (length (data body))
  /\ (length (chartDataOf rpRaw sthRPRaw lthRPRaw hist)
      <= length (data body)
      <= S (length (chartDataOf rpRaw sthRPRaw lthRPRaw hist)))%nat.
Proof.
  intros Hget. apply GET_Success_inv in Hget
    as (rpRaw' & hist' & e & [= <-] & [= <-] & _ & _ & _ & _ & Hdata & _
        & Hpoints).
  set (chart := chartDataOf rpRaw sthRPRaw lthRPRaw hist) in *.
  assert (Hchart : (4 * length chart < length hist + 8)%nat).
  { unfold chart, chartDataOf. rewrite length_fmap.
    pose proof (sampledOf_length (filteredOf hist)).
    pose proof (sublist_length _ _ (filteredOf_sublist hist)). lia. }
  assert (Htick : (length chart <= length (data body) <= S (length chart))%nat).
  { rewrite Hdata. unfold liveTick.
    destruct livePrice as [p |]; [| lia].
    destruct (last chart) as [lastRecord |] eqn:Hlast; [| lia].
    destruct (truthy p); [| lia].
    unfold pushOrReplace. destruct (_ <? _).
    - rewrite length_app. simpl. lia.
    - rewrite length_insert. lia. }
  split; [lia |]. by split.
Qed.

(** * Properties of the components *)

(** ** [determineBand] *)

Lemma atLeast_divide (price rp c : Q) :
  (0 < rp)%Q ->
  atLeast (divide price rp) c = true <-> (c * rp <= price)%Q.
Proof.
  intros Hrp. unfold divide.
  destruct (Qeq_bool rp 0) eqn:Hzero.
  { apply Qeq_bool_iff in Hzero. rewrite Hzero in Hrp.
    by apply Qlt_irrefl in Hrp. }
  simpl. rewrite Qle_bool_iff. split.
  - intros Hle. apply (Qmult_le_compat_r _ _ rp) in Hle; [| lra].
    rewrite Qmult_comm, (Qmult_comm (price / rp)) in Hle.
    rewrite Qmult_div_r in Hle by lra. lra.
  - intros Hle. apply Qle_shift_div_l; [done | lra].
Qed.

Local Ltac band_cases price rp Hrp :=
  unfold determineBand;
  repeat match goal with
    | |- context [atLeast (divide price rp) ?c] =>
        let H := fresh "Hband" in
        destruct (atLeast (divide price rp) c) eqn:H;
        [apply (atLeast_divide price rp c Hrp) in H
        | apply not_true_iff_false in H;
          rewrite (atLeast_divide price rp c Hrp) in H]
    end.

(** X15.  For a positive realized price the seven zones of [determineBand]
    are the price intervals cut at 0.8, 1.0, 1.25, 1.7, 2.4 and 3.2 times the
    realized price, each closed below and open above. *)
Theorem determineBand_zones (price rp : Q) :
  (0 < rp)%Q ->
  let s := sentiment (determineBand price rp) in
  (s = "Extreme Overheated" <-> 3.2 * rp <= price)%Q
  /\ (s = "Euphoria" <-> 2.4 * rp <= price /\ price < 3.2 * rp)%Q
  /\ (s = "Above Fair Value" <-> 1.7 * rp <= price /\ price < 2.4 * rp)%Q
  /\ (s = "Bull Trend" <-> 1.25 * rp <= price /\ price < 1.7 * rp)%Q
  /\ (s = "Caution" <-> 1.0 * rp <= price /\ price < 1.25 * rp)%Q
  /\ (s = "Capitulation Risk" <-> 0.8 * rp <= price /\ price < 1.0 * rp)%Q
  /\ (s = "Deep Capitulation" <-> price < 0.8 * rp)%Q.
Proof.
  intros Hrp s. unfold s. band_cases price rp Hrp; simpl;
    repeat split; intros; try done; try lra.
Qed.

(** X16.  Division by a realized price of zero: a positive price then counts
    as above 3.2x (the ratio is infinite), a price of zero or below as below
    0.8x (the ratio is [NaN] or minus infinity, and every comparison
    fails). *)
Theorem determineBand_zero_rp (price rp : Q) :
  (rp == 0)%Q ->
  ((0 < price)%Q ->
   determineBand price rp
   = {| zone := "above 3.2x RP"; sentiment := "Extreme Overheated" |})
  /\ ((price <= 0)%Q ->
      determineBand price rp
      = {| zone := "below 0.8x RP"; sentiment := "Deep Capitulation" |}).
Proof.
  intros Hrp%Qeq_bool_iff. unfold determineBand, divide. rewrite Hrp.
  split; intros Hprice.
  - destruct (Qeq_bool price 0) eqn:Hzero.
    { apply Qeq_bool_iff in Hzero. lra. }
    destruct (Qle_bool 0 price) eqn:Hpos; [done |].
    apply not_true_iff_false in Hpos. rewrite Qle_bool_iff in Hpos. lra.
  - destruct (Qeq_bool price 0) eqn:Hzero; [done |].
    destruct (Qle_bool 0 price) eqn:Hpos; [| done].
    apply Qle_bool_iff in Hpos. apply Qeq_bool_neq in Hzero. lra.
Qed.

(** ** The texts of the commentary *)

Lemma Math_round_le_int (v : Q) (z : Z) :
  (v <= inject_Z z)%Q -> Math_round v <= z.
Proof.
  intros Hv. pose proof (Math_round_bounds v) as [Hlow _].
  assert (Hlt : (inject_Z (Math_round v) < inject_Z (z + 1))%Q)
    by (rewrite inject_Z_plus; change (inject_Z 1) with 1%Q; lra).
  rewrite <- Zlt_Qlt in Hlt. lia.
Qed.

Lemma Math_round_lt_int (v : Q) (z : Z) :
  Math_round v < z -> (v < inject_Z z)%Q.
Proof.
  intros Hz. pose proof (Math_round_bounds v) as [_ Hup].
  assert (Hle : (inject_Z (Math_round v + 1) <= inject_Z z)%Q)
    by (rewrite <- Zle_Qle; lia).
  rewrite inject_Z_plus in Hle. change (inject_Z 1) with 1%Q in Hle. lra.
Qed.

(** X17.  The texts agree with the zone, for a whole-number price and a
    positive realized price: when the live-position paragraph says the price
    holds above the decision line ([price > key125]) the zone is 1.25x or
    higher; when the zone is 1.25x or higher the key insight is the
    "trading above" text; and the key insight is the "below Realized Price"
    text exactly when the zone is below 1.0x and the price is below
    [key125]. *)
Theorem commentary_consistent (price : Z) (rp : Q) :
  (0 < rp)%Q ->
  let p := inject_Z price in
  (holdsDecisionLine p rp = true -> atLeast (divide p rp) 1.25 = true)
  /\ (atLeast (divide p rp) 1.25 = true ->
      keyInsight p rp = AboveDecisionLine)
  /\ (keyInsight p rp = BelowRealizedPrice <->
      atLeast (divide p rp) 1.0 = false
      /\ ~ (inject_Z (key125 rp) <= p)%Q).
Proof.
  intros Hrp p. subst p. unfold holdsDecisionLine, keyInsight, key125.
  rewrite !atLeast_divide by done.
  rewrite negb_true_iff, <- !not_true_iff_false, !atLeast_divide by done.
  set (p := inject_Z price).
  split; [| split].
  - unfold p. rewrite Qle_bool_iff, <- Zle_Qle. intros Hgt.
    assert (Hlt : Math_round (rp * 1.25) < price) by lia.
    apply Math_round_lt_int in Hlt. lra.
  - intros Hzone.
    assert (Hle : Math_round (rp * 1.25) <= price)
      by (apply Math_round_le_int; fold p; lra).
    rewrite Zle_Qle in Hle. apply Qle_bool_iff in Hle. fold p in Hle.
    by rewrite Hle.
  - destruct (Qle_bool (inject_Z (Math_round (rp * 1.25))) p) eqn:Hkey.
    { apply Qle_bool_iff in Hkey. split; [done | by intros [_ ?]]. }
    apply not_true_iff_false in Hkey. rewrite Qle_bool_iff in Hkey.
    destruct (Qle_bool rp p) eqn:Hrpp.
    + apply Qle_bool_iff in Hrpp. split; [done |]. intros [Hlow _]. lra.
    + apply not_true_iff_false in Hrpp. rewrite Qle_bool_iff in Hrpp.
      split; [| done]. intros _. split; [lra | done].
Qed.

Lemma Math_round_whole (v : Q) (z : Z) :
  (v == inject_Z z)%Q -> Math_round v = z.
Proof.
  intros Hv. pose proof (Math_round_bounds v) as [Hlow Hup].
  assert (Hlt1 : (inject_Z (Math_round v) < inject_Z (z + 1))%Q)
    by (rewrite inject_Z_plus; change (inject_Z 1) with 1%Q; lra).
  assert (Hlt2 : (inject_Z z < inject_Z (Math_round v + 1))%Q)
    by (rewrite inject_Z_plus; change (inject_Z 1) with 1%Q; lra).
  rewrite <- Zlt_Qlt in Hlt1, Hlt2. lia.
Qed.

Lemma Math_round_close (a b : Q) (n : Z) :
  (a - b < inject_Z n)%Q -> (b - a < inject_Z n)%Q ->
  - n <= Math_round a - Math_round b <= n.
Proof.
  intros Hab Hba.
  pose proof (Math_round_bounds a) as [? ?].
  pose proof (Math_round_bounds b) as [? ?].
  assert (Hlt1 : (inject_Z (Math_round a)
                  < inject_Z (Math_round b + n + 1))%Q)
    by (rewrite !inject_Z_plus; change (inject_Z 1) with 1%Q; lra).
  assert (Hlt2 : (inject_Z (Math_round b)
                  < inject_Z (Math_round a + n + 1))%Q)
    by (rewrite !inject_Z_plus; change (inject_Z 1) with 1%Q; lra).
  rewrite <- Zlt_Qlt in Hlt1, Hlt2. lia.
Qed.

(** X18.  The band table of the commentary is computed from the rounded
    latest realized price, the band fields of a record from the unrounded
    one.  Against a record built from the same realized price the table
    agrees exactly at 1.0x, within 1 at 0.8x, 1.25x and 1.7x, and within 2 at
    2.4x and 3.2x. *)
Theorem bands_table_close (v : Q) (r : CompositeRecord) :
  bandsOf v r ->
  exists b32 b24 b17 b125 b10 b08,
    bands (inject_Z (rp r)) = [b32; b24; b17; b125; b10; b08]
    /\ b10 = rp r
    /\ -1 <= b08 - rp_0_8 r <= 1
    /\ -1 <= b125 - rp_1_25 r <= 1
    /\ -1 <= b17 - rp_1_7 r <= 1
    /\ -2 <= b24 - rp_2_4 r <= 2
    /\ -2 <= b32 - rp_3_2 r <= 2.
Proof.
  intros (-> & -> & -> & -> & -> & ->).
  eexists _, _, _, _, _, _. split; [reflexivity |].
  pose proof (Math_round_bounds v) as [? ?].
  split.
  { apply Math_round_whole. lra. }
  change (-1) with (- (1)). change (-2) with (- (2)).
  repeat split; apply Math_round_close;
    change (inject_Z 1) with 1%Q; change (inject_Z 2) with 2%Q; lra.
Qed.

(** ** The Y-axis domain of the chart *)

Lemma foldl_max_bounds (l : list Z) :
  forall a, a <= foldl Z.max a l /\ Forall (fun v => v <= foldl Z.max a l) l.
Proof.
  induction l as [| b l IH]; intros a; simpl; [split; [lia | done] |].
  destruct (IH (Z.max a b)) as [Hacc Hall]. split; [lia |].
  constructor; [lia | done].
Qed.

Lemma foldl_min_bounds (l : list Z) :
  forall a, foldl Z.min a l <= a /\ Forall (fun v => foldl Z.min a l <= v) l.
Proof.
  induction l as [| b l IH]; intros a; simpl; [split; [lia | done] |].
  destruct (IH (Z.min a b)) as [Hacc Hall]. split; [lia |].
  constructor; [lia | done].
Qed.

Lemma data_range (allValues : list Z) (v : Z) :
  v ∈ allValues -> dataMinOf allValues <= v <= dataMaxOf allValues.
Proof.
  destruct allValues as [| a l]; [by intros ?%elem_of_nil |].
  simpl. pose proof (foldl_max_bounds l a) as [Hmax Hmaxs].
  pose proof (foldl_min_bounds l a) as [Hmin Hmins].
  rewrite Forall_forall in Hmaxs, Hmins.
  intros [-> | Hin]%elem_of_cons; [lia |].
  specialize (Hmaxs _ Hin). specialize (Hmins _ Hin). lia.
Qed.

Lemma allValuesOf_positive (chartData : list CompositeRecord) (v : Z) :
  v ∈ allValuesOf chartData -> 0 < v.
Proof.
  unfold allValuesOf. rewrite list_elem_of_In, filter_In.
  intros [_ Hv]. by apply Z.ltb_lt.
Qed.

Lemma data_bounds_positive (chartData : list CompositeRecord) :
  0 < dataMinOf (allValuesOf chartData)
       <= dataMaxOf (allValuesOf chartData).
Proof.
  pose proof (allValuesOf_positive chartData) as Hpos.
  pose proof (data_range (allValuesOf chartData)) as Hrange.
  destruct (allValuesOf chartData) as [| a l] eqn:Hvs; [simpl; lia |].
  assert (Ha : a ∈ a :: l) by (by left). split; [| specialize (Hrange a Ha); lia].
  simpl. assert (Hall : Forall (fun v => 0 < v) (a :: l))
    by (by rewrite Forall_forall).
  apply Forall_cons in Hall as [Ha0 Hl]. clear -Ha0 Hl.
  revert a Ha0. induction Hl as [| b l Hb _ IH]; intros a Ha0; simpl; [done |].
  apply IH. lia.
Qed.

Lemma pool_range : Forall (fun t => 500 <= t <= 1000000) LOG_TICKS_POOL.
Proof. repeat constructor; lia. Qed.

Lemma pool_ascending : StronglySorted Z.lt LOG_TICKS_POOL.
Proof. repeat constructor; lia. Qed.

Lemma yMinOf_spec (dataMin : Z) :
  yMinOf dataMin ∈ LOG_TICKS_POOL
  /\ (500 <= dataMin -> yMinOf dataMin <= dataMin)
  /\ (dataMin < 500 -> yMinOf dataMin = 500).
Proof.
  unfold yMinOf.
  destruct (last (List.filter (fun t => t <=? dataMin) LOG_TICKS_POOL))
    as [t |] eqn:Hlast.
  - assert (Hin : t ∈ List.filter (fun t => t <=? dataMin) LOG_TICKS_POOL).
    { rewrite last_lookup in Hlast. by eapply list_elem_of_lookup_2. }
    rewrite list_elem_of_In, filter_In, <- list_elem_of_In in Hin.
    destruct Hin as [Hpool Hle%Z.leb_le]. simpl.
    split; [done |]. split; [done |]. intros Hlow.
    pose proof pool_range as Hrange. rewrite Forall_forall in Hrange.
    specialize (Hrange _ Hpool). lia.
  - simpl. split; [by left |]. split; [| done]. intros Hhigh.
    apply last_None in Hlast.
    assert (Hin : 500 ∈ List.filter (fun t => t <=? dataMin) LOG_TICKS_POOL).
    { rewrite list_elem_of_In, filter_In, <- list_elem_of_In.
      split; [by left | by apply Z.leb_le]. }
    rewrite Hlast in Hin. by apply elem_of_nil in Hin.
Qed.

Lemma yMaxOf_spec (dataMax : Z) :
  yMaxOf dataMax ∈ LOG_TICKS_POOL
  /\ ((inject_Z dataMax * 1.15 <= 1000000)%Q ->
      (inject_Z dataMax * 1.15 <= inject_Z (yMaxOf dataMax))%Q)
  /\ ((1000000 < inject_Z dataMax * 1.15)%Q -> yMaxOf dataMax = 1000000)
  /\ (yMaxOf dataMax = 1000000
      \/ (inject_Z dataMax * 1.15 <= inject_Z (yMaxOf dataMax))%Q).
Proof.
  unfold yMaxOf.
  destruct (List.find _ LOG_TICKS_POOL) as [t |] eqn:Hfind; simpl.
  - apply find_some in Hfind as [Hpool Hle%Qle_bool_iff].
    rewrite <- list_elem_of_In in Hpool.
    split; [done |]. split; [done |]. split; [| by right]. intros Hover.
    pose proof pool_range as Hrange. rewrite Forall_forall in Hrange.
    destruct (Hrange _ Hpool) as [_ Hup]. rewrite Zle_Qle in Hup.
    change (inject_Z 1000000) with 1000000%Q in Hup. lra.
  - split; [do 18 right; by left |]. split; [| split; [done | by left]].
    intros Hfits.
    assert (Hlast : 1000000 ∈ LOG_TICKS_POOL) by (do 18 right; by left).
    rewrite list_elem_of_In in Hlast.
    apply (find_none _ _ Hfind) in Hlast.
    apply not_true_iff_false in Hlast. rewrite Qle_bool_iff in Hlast.
    change (inject_Z 1000000) with 1000000%Q in Hlast. lra.
Qed.

Lemma yDomain_le (chartData : list CompositeRecord) :
  yMinOf (dataMinOf (allValuesOf chartData))
  <= yMaxOf (dataMaxOf (allValuesOf chartData)).
Proof.
  pose proof (data_bounds_positive chartData) as [Hpos Hle].
  set (dataMin := dataMinOf _) in *. set (dataMax := dataMaxOf _) in *.
  destruct (yMinOf_spec dataMin) as (Hmin_pool & Hmin_le & Hmin_500).
  destruct (yMaxOf_spec dataMax) as (Hmax_pool & _ & _ & Hmax).
  pose proof pool_range as Hrange. rewrite Forall_forall in Hrange.
  destruct Hmax as [-> | Hmax]; [apply (Hrange _ Hmin_pool) |].
  destruct (Z.lt_ge_cases dataMin 500) as [Hlow | Hhigh].
  - rewrite (Hmin_500 Hlow). apply (Hrange _ Hmax_pool).
  - specialize (Hmin_le Hhigh). rewrite Zle_Qle.
    assert (H1 : (inject_Z (yMinOf dataMin) <= inject_Z dataMax)%Q)
      by (rewrite <- Zle_Qle; lia).
    assert (H2 : (0 < inject_Z dataMax)%Q)
      by (change 0%Q with (inject_Z 0); rewrite <- Zlt_Qlt; lia).
    lra.
Qed.

(** The ticks between two ticks of the pool start with the first and end
    with the second; checked on every pair of the pool. *)
Lemma yTicksOf_ends (yMin yMax : Z) :
  yMin ∈ LOG_TICKS_POOL -> yMax ∈ LOG_TICKS_POOL -> yMin <= yMax ->
  head (yTicksOf yMin yMax) = Some yMin
  /\ last (yTicksOf yMin yMax) = Some yMax.
Proof.
  intros Hmin Hmax Hle.
  assert (Hall :
    forallb (fun a =>
      forallb (fun b =>
        implb (a <=? b)
          (bool_decide (head (yTicksOf a b) = Some a
                        /\ last (yTicksOf a b) = Some b)))
        LOG_TICKS_POOL) LOG_TICKS_POOL = true) by (by vm_compute).
  rewrite forallb_forall in Hall. rewrite list_elem_of_In in Hmin, Hmax.
  specialize (Hall _ Hmin). rewrite forallb_forall in Hall.
  specialize (Hall _ Hmax). apply Z.leb_le in Hle. rewrite Hle in Hall.
  simpl in Hall. by apply bool_decide_eq_true in Hall.
Qed.

(** The range filter cuts one contiguous run out of an ascending list. *)
Lemma range_filter_run (l : list Z) (lo hi : Z) :
  StronglySorted Z.lt l ->
  exists before after,
    l = before
        ++ List.filter (fun t => (lo <=? t) && (t <=? hi)) l ++ after
    /\ Forall (fun t => t < lo) before
    /\ Forall (fun t => hi < t) after.
Proof.
  induction 1 as [| a l Hl IH Ha]; [by exists [], [] |].
  destruct IH as (before & after & Heq & Hbefore & Hafter). simpl.
  destruct (Z.leb_spec lo a) as [Hlo | Hlo];
    destruct (Z.leb_spec a hi) as [Hhi | Hhi]; simpl.
  - assert (Hnil : before = []).
    { destruct before as [| b before]; [done |].
      apply Forall_cons in Hbefore as [Hb _].
      rewrite Forall_forall in Ha.
      assert (a < b) by (apply Ha; rewrite Heq; by left). lia. }
    subst before. exists [], after. simpl in *.
    split; [by rewrite <- Heq | by split].
  - assert (Hnone : List.filter (fun t => (lo <=? t) && (t <=? hi)) l = []).
    { clear -Ha Hhi. induction l as [| b l IH]; [done |].
      apply Forall_cons in Ha as [Hab Ha]. simpl.
      destruct (Z.leb_spec b hi); [lia |]. rewrite andb_false_r. by apply IH. }
    rewrite Hnone. exists [], (a :: l). simpl. split; [done |].
    split; [done |]. constructor; [done |].
    eapply Forall_impl; [done |]. simpl. intros b Hb. lia.
  - exists (a :: before), after. simpl. split; [by rewrite <- Heq |].
    split; [by constructor | done].
  - exists (a :: before), after. simpl. split; [by rewrite <- Heq |].
    split; [by constructor | done].
Qed.

Lemma yTicksOf_run (yMin yMax : Z) :
  exists before after,
    LOG_TICKS_POOL = before ++ yTicksOf yMin yMax ++ after
    /\ Forall (fun t => t < yMin) before
    /\ Forall (fun t => yMax < t) after.
Proof. apply range_filter_run, pool_ascending. Qed.

Lemma list_filter_sublist {A} (f : A -> bool) (l : list A) :
  List.filter f l `sublist_of` l.
Proof.
  induction l as [| a l IH]; simpl; [done |].
  destruct (f a); by constructor.
Qed.

(** X19.  The Y-axis domain is well formed for every record sequence, the
    empty one included: its bounds are ticks of the pool with
    [yMin <= yMax], and the ticks shown are exactly the ticks of the pool
    from [yMin] to [yMax], in the order of the pool: a strictly ascending run
    that starts at [yMin], ends at [yMax] and skips no tick between them. *)
Theorem yDomain_well_formed (chartData : list CompositeRecord) :
  let yMin := yMinOf (dataMinOf (allValuesOf chartData)) in
  let yMax := yMaxOf (dataMaxOf (allValuesOf chartData)) in
  yMin ∈ LOG_TICKS_POOL /\ yMax ∈ LOG_TICKS_POOL /\ yMin <= yMax
  /\ (forall t, t ∈ yTicksOf yMin yMax
                <-> t ∈ LOG_TICKS_POOL /\ yMin <= t <= yMax)
  /\ (exists before after,
        LOG_TICKS_POOL = before ++ yTicksOf yMin yMax ++ after
        /\ Forall (fun t => t < yMin) before
        /\ Forall (fun t => yMax < t) after)
  /\ StronglySorted Z.lt (yTicksOf yMin yMax)
  /\ head (yTicksOf yMin yMax) = Some yMin
  /\ last (yTicksOf yMin yMax) = Some yMax.
Proof.
  intros yMin yMax.
  destruct (yMinOf_spec (dataMinOf (allValuesOf chartData))) as [Hmin _].
  destruct (yMaxOf_spec (dataMaxOf (allValuesOf chartData))) as [Hmax _].
  pose proof (yDomain_le chartData) as Hle.
  split; [done |]. split; [done |]. split; [done |].
  split; [| split; [| split; [| by apply yTicksOf_ends]]].
  - intros t. unfold yTicksOf.
    rewrite !list_elem_of_In, filter_In, andb_true_iff, !Z.leb_le. done.
  - apply yTicksOf_run.
  - eapply sorted_sublist; [apply list_filter_sublist | apply pool_ascending].
Qed.


(** * Concrete runs of the further properties *)


Lemma buildDayMap_keys_witness :
  Forall (fun p => validTime p.1) doubledDaySeries
  /\ buildDayMap doubledDaySeries !! (3 * msPerDay) = Some 2.5%Q
  /\ (exists ts, (ts, 2.5%Q) ∈ doubledDaySeries
                 /\ utcMidnight ts = 3 * msPerDay)
  /\ (3 * msPerDay) mod msPerDay = 0.
Proof.
  assert (Hvalid : Forall (fun p => validTime p.1) doubledDaySeries)
    by (repeat constructor; vm_compute; discriminate).
  split; [exact Hvalid |].
  destruct (buildDayMap_keys doubledDaySeries Hvalid)
    as (_ & Hmidnight & Hvalue & _).
  assert (Hstored : buildDayMap doubledDaySeries !! (3 * msPerDay)
                    = Some 2.5%Q) by reflexivity.
  split; [exact Hstored |]. split; [exact (Hvalue _ _ Hstored) |].
  apply Hmidnight. do 2 right. left.
Defined.

Lemma sortedKeysOf_spec_witness :
  Forall (fun p => validTime p.1) doubledDaySeries
  /\ sortedKeysOf (buildDayMap doubledDaySeries)
     = [0; 3 * msPerDay; 10 * msPerDay]
  /\ StronglySorted Z.lt (sortedKeysOf (buildDayMap doubledDaySeries))
  /\ length (sortedKeysOf (buildDayMap doubledDaySeries))
     = size (buildDayMap doubledDaySeries).
Proof.
  assert (Hvalid : Forall (fun p => validTime p.1) doubledDaySeries)
    by (repeat constructor; vm_compute; discriminate).
  split; [exact Hvalid |]. split; [by vm_compute |].
  destruct (sortedKeysOf_spec doubledDaySeries Hvalid)
    as (Hsorted & _ & _ & _ & Hlength & _).
  by split.
Defined.

Lemma lookupRP_no_lookahead_witness :
  lookupRP (buildDayMap doubledDaySeries)
    (sortedKeysOf (buildDayMap doubledDaySeries)) (5 * msPerDay + 3)
  = Some 2.5%Q
  /\ exists k,
      k <= utcMidnight (5 * msPerDay + 3)
      /\ buildDayMap doubledDaySeries !! k = Some 2.5%Q
      /\ (k = utcMidnight (5 * msPerDay + 3)
          \/ k ∈ sortedKeysOf (buildDayMap doubledDaySeries)).
Proof.
  assert (Hlookup : lookupRP (buildDayMap doubledDaySeries)
                      (sortedKeysOf (buildDayMap doubledDaySeries))
                      (5 * msPerDay + 3) = Some 2.5%Q) by (by vm_compute).
  split; [exact Hlookup |].
  exact (lookupRP_no_lookahead _ _ _ _ Hlookup).
Defined.

Lemma lookupRP_same_day_witness :
  Forall (fun p => validTime p.1) doubledDaySeries
  /\ validTime (3 * msPerDay + 86399999)
  /\ utcMidnight (3 * msPerDay + 7) <= 3 * msPerDay + 86399999
     < utcMidnight (3 * msPerDay + 7) + msPerDay
  /\ lookupRP (buildDayMap doubledDaySeries) [] (3 * msPerDay + 86399999)
     = Some 2.5%Q.
Proof.
  assert (Hvalid : Forall (fun p => validTime p.1) doubledDaySeries)
    by (repeat constructor; vm_compute; discriminate).
  assert (Ht : validTime (3 * msPerDay + 86399999))
    by (split; vm_compute; discriminate).
  assert (Hday : utcMidnight (3 * msPerDay + 7) <= 3 * msPerDay + 86399999
                 < utcMidnight (3 * msPerDay + 7) + msPerDay)
    by (split; [discriminate | reflexivity]).
  split; [exact Hvalid |]. split; [exact Ht |]. split; [exact Hday |].
  apply (lookupRP_same_day [(0, 1%Q); (3 * msPerDay + 5, 2%Q)]
           [(10 * msPerDay, 3%Q)] (3 * msPerDay + 7) 2.5%Q [] _ Hvalid Ht);
    [| exact Hday].
  repeat constructor; discriminate.
Defined.

Lemma lookupRP_reads_logarithmic_witness :
  Z.of_nat (length [0; 3 * msPerDay; 10 * msPerDay]) < 2 ^ Z.of_nat 2
  /\ exists r reads,
      lookupRP_run 4 ∅ [0; 3 * msPerDay; 10 * msPerDay] (5 * msPerDay)
      = Some (r, reads)
      /\ (length reads <= 2 + 1)%nat.
Proof.
  assert (Hk : Z.of_nat (length [0; 3 * msPerDay; 10 * msPerDay])
               < 2 ^ Z.of_nat 2) by reflexivity.
  split; [exact Hk |].
  apply (lookupRP_reads_logarithmic ∅ [0; 3 * msPerDay; 10 * msPerDay]
           (5 * msPerDay) 2); [discriminate | exact Hk].
Defined.



Lemma GET_cohort_absent_witness :
  exists body,
    GET (Some (oneDaySeries 1)) None (Some []) (Some dailyPrices)
      (Some 70000%Q) 0 0 = Success body
    /\ Forall (fun r => sth_rp r = None) (data body)
    /\ Forall (fun r => lth_rp r = None) (data body).
Proof.
  eexists. split; [by vm_compute |].
  destruct (GET_cohort_absent (Some (oneDaySeries 1)) None (Some [])
              (Some dailyPrices) (Some 70000%Q) 0 0 _ ltac:(by vm_compute))
    as [Hsth Hlth].
  split; [by apply Hsth | by apply Hlth].
Defined.

Lemma no_reading_fallback_witness :
  Forall (fun d => utcMidnight (-1000) < d) (daysOf doubledDaySeries)
  /\ rp (chartPoint (buildDayMap doubledDaySeries)
           (sortedKeysOf (buildDayMap doubledDaySeries)) None None None None
           {| Price.x := -1; Price.y := 5 |}) = 0
  /\ rp (livePoint (buildDayMap doubledDaySeries)
           (sortedKeysOf (buildDayMap doubledDaySeries)) None None None None
           3 None None 5 (-1000)) = 3.
Proof.
  assert (Hbefore : Forall (fun d => utcMidnight (-1000) < d)
                      (daysOf doubledDaySeries)) by (by repeat constructor).
  assert (Hvalid : Forall (fun p => validTime p.1) doubledDaySeries)
    by (repeat constructor; vm_compute; discriminate).
  split; [exact Hbefore |].
  destruct (no_reading_fallback doubledDaySeries (-1000) None None None None
              Hvalid Hbefore) as [Hmerge Hlive].
  split.
  - by destruct (Hmerge {| Price.x := -1; Price.y := 5 |} eq_refl) as [-> _].
  - by destruct (Hlive 3 None None 5%Q) as [-> _].
Defined.

Lemma GET_record_count_witness :
  exists body,
    GET (Some (oneDaySeries 1)) None None (Some dailyPrices) (Some 70000%Q)
      (1523318400000 + 13 * 3600000) 0 = Success body
    /\ (4 * length (data body) < length dailyPrices + 12)%nat
    /\ dataPoints body = Z.of_nat (length (data body)).
Proof.
  eexists. split; [by vm_compute |].
  destruct (GET_record_count (oneDaySeries 1) None None dailyPrices
              (Some 70000%Q) (1523318400000 + 13 * 3600000) 0 _
              ltac:(by vm_compute)) as (Hcount & Hpoints & _).
  by split.
Defined.

Lemma determineBand_zones_witness :
  (0 < 40000)%Q /\ sentiment (determineBand 60000 40000) = "Bull Trend".
Proof.
  assert (Hrp : (0 < 40000)%Q) by reflexivity.
  split; [exact Hrp |].
  destruct (determineBand_zones 60000 40000 Hrp) as (_ & _ & _ & Hbull & _).
  apply Hbull. split; [discriminate | reflexivity].
Defined.

Lemma determineBand_zero_rp_witness :
  determineBand 60000 0
  = {| zone := "above 3.2x RP"; sentiment := "Extreme Overheated" |}
  /\ determineBand 0 0
     = {| zone := "below 0.8x RP"; sentiment := "Deep Capitulation" |}.
Proof.
  split.
  - destruct (determineBand_zero_rp 60000 0 (Qeq_refl 0)) as [Hpos _].
    apply Hpos. reflexivity.
  - destruct (determineBand_zero_rp 0 0 (Qeq_refl 0)) as [_ Hzero].
    apply Hzero. discriminate.
Defined.

Lemma commentary_consistent_witness :
  (0 < 50000)%Q
  /\ keyInsight (inject_Z 70000) 50000 = AboveDecisionLine.
Proof.
  assert (Hrp : (0 < 50000)%Q) by reflexivity.
  split; [exact Hrp |].
  destruct (commentary_consistent 70000 50000 Hrp) as (_ & Habove & _).
  apply Habove. reflexivity.
Defined.

Lemma bands_table_close_witness :
  bandsOf 22000 dayTenRecord
  /\ exists b32 b24 b17 b125 b10 b08,
      bands (inject_Z (rp dayTenRecord)) = [b32; b24; b17; b125; b10; b08]
      /\ b10 = rp dayTenRecord
      /\ -1 <= b08 - rp_0_8 dayTenRecord <= 1
      /\ -1 <= b125 - rp_1_25 dayTenRecord <= 1
      /\ -1 <= b17 - rp_1_7 dayTenRecord <= 1
      /\ -2 <= b24 - rp_2_4 dayTenRecord <= 2
      /\ -2 <= b32 - rp_3_2 dayTenRecord <= 2.
Proof.
  assert (Hbands : bandsOf 22000 dayTenRecord) by (by repeat split).
  split; [exact Hbands |]. exact (bands_table_close 22000 dayTenRecord Hbands).
Defined.

